(** * Nodex workflow editor: layout solver, edit layer and n8n translator

    A shallow embedding of the TypeScript sources of the canvas
    (findFreePosition, arrangeNodesIntelligently, deleteSelectedNodes,
    handleDelete) and of the n8n converter (N8nWorkflowConverter), together
    with the properties the specification states about them. The invariant
    enforcer, which runs on the server, is modelled from the specification.

    Conventions of the embedding:
    - a JS [number] is a rational [Q]; the arithmetic of the modelled code is
      on small integers except for the spiral scan and the random offset;
    - a JS string is a [string]; [toLowerCase] folds the ASCII letters;
    - a JS object used as a dictionary is a [gmap string _];
    - an untyped parameter block ([any]) is a [json] tree;
    - [Math.cos], [Math.sin], [Math.random] and [new Date()] are inputs. *)

From Stdlib Require Import ZArith QArith Lqa Lia List String Ascii Bool.
From stdpp Require Import base strings gmap list pretty.

Local Open Scope string_scope.
Local Open Scope list_scope.

(* ===================================================================== *)
(** ** Strings *)
(* ===================================================================== *)

Module Str.

(** [c.toLowerCase()] on one ASCII character. *)
Definition lower_ascii (c : ascii) : ascii :=
  let n := nat_of_ascii c in
  if (Nat.leb 65 n && Nat.leb n 90)%bool then ascii_of_nat (n + 32) else c.

(** [s.toLowerCase()]. *)
Fixpoint toLowerCase (s : string) : string :=
  match s with
  | EmptyString => EmptyString
  | String c s' => String (lower_ascii c) (toLowerCase s')
  end.

(** [s.includes(sub)]: [sub] occurs in [s] at some offset. *)
Fixpoint includes (s sub : string) : bool :=
  String.prefix sub s ||
  match s with
  | EmptyString => false
  | String _ s' => includes s' sub
  end.

(** [a || b] on strings: the empty string is falsy. *)
Definition or_else (a b : string) : string :=
  if String.eqb a "" then b else a.

End Str.

(* ===================================================================== *)
(** ** Untyped values *)
(* ===================================================================== *)

Local Unset Elimination Schemes.

Inductive json : Type :=
| JNull
| JBool (b : bool)
| JNum (q : Q)
| JStr (s : string)
| JArr (items : list json)
| JObj (fields : list (string * json)).

Local Set Elimination Schemes.

Module Json.

(** Own property names of an object, in insertion order. *)
Definition keys (j : json) : list string :=
  match j with
  | JObj fields => fst <$> fields
  | _ => []
  end.

(** [obj[k]]. *)
Fixpoint assoc (k : string) (fields : list (string * json)) : option json :=
  match fields with
  | [] => None
  | (k', v) :: rest => if String.eqb k k' then Some v else assoc k rest
  end.

Definition get (k : string) (j : json) : option json :=
  match j with
  | JObj fields => assoc k fields
  | _ => None
  end.

(** [obj[k] = v] on the field list: an existing key keeps its place. *)
Fixpoint set_field (k : string) (v : json) (fields : list (string * json))
  : list (string * json) :=
  match fields with
  | [] => [(k, v)]
  | (k', v') :: rest =>
      if String.eqb k k' then (k, v) :: rest else (k', v') :: set_field k v rest
  end.

(** [{...base, k1: v1, ..., kn: vn}]. *)
Definition spread (base : json) (extra : list (string * json)) : json :=
  let start := match base with JObj fields => fields | _ => [] end in
  JObj (foldl (fun acc kv => set_field kv.1 kv.2 acc) start extra).

End Json.

(* ===================================================================== *)
(** ** The canvas graph (reactflow [Node<N8nNodeData>] and [Edge]) *)
(* ===================================================================== *)

Record XY : Type := mkXY { px : Q; py : Q }.

(** [N8nNodeData]; an absent [locked] is falsy and is modelled as [false]. *)
Record N8nNodeData : Type := mkData {
  label : string;
  nodeType : string;
  locked : bool;
  compliance_reason : option string;
  description : option string
}.

Record Node : Type := mkNode {
  id : string;
  position : XY;
  data : N8nNodeData
}.

Record Edge : Type := mkEdge {
  edge_id : string;
  source : string;
  target : string
}.

(** [nodes.find(n => n.id === i)]. *)
Definition findNode (nodes : list Node) (i : string) : option Node :=
  List.find (fun n => String.eqb (id n) i) nodes.

(* ===================================================================== *)
(** ** Schema translator (N8nWorkflowConverter) *)
(* ===================================================================== *)

Module Translator.

Definition nl : string := String (ascii_of_nat 10) EmptyString.
Definition dq : string := String (ascii_of_nat 34) EmptyString.

(** [N8N_NODE_MAPPINGS]. *)
Definition trigger_webhook := "n8n-nodes-base.webhook".
Definition trigger_schedule := "n8n-nodes-base.cron".
Definition trigger_manual := "n8n-nodes-base.manualTrigger".
Definition action_http_request := "n8n-nodes-base.httpRequest".
Definition action_email := "n8n-nodes-base.emailSend".
Definition action_database := "n8n-nodes-base.postgres".
Definition action_llm_call := "n8n-nodes-base.openAi".
Definition action_code := "n8n-nodes-base.code".
Definition mapping_condition := "n8n-nodes-base.if".
Definition mapping_notification := "n8n-nodes-base.slack".
Definition function_node := "n8n-nodes-base.function".

Record ConnEntry : Type := mkEntry {
  conn_node : string;
  conn_type : string;
  conn_index : Z
}.

(** One value of [N8nConnections]: [{ main: [[...]] }]. *)
Record Conn : Type := mkConn { main : list (list ConnEntry) }.

Record N8nNode : Type := mkN8nNode {
  n8n_id : string;
  n8n_name : string;
  n8n_type : string;
  typeVersion : Z;
  n8n_position : Q * Q;
  parameters : json;
  webhookId : option string;
  credentials : option json
}.

Record N8nWorkflow : Type := mkWorkflow {
  wf_name : string;
  wf_nodes : list N8nNode;
  wf_connections : gmap string Conn;
  active : bool;
  settings : json;
  staticData : json
}.

Definition lowerLabel (n : Node) : string := Str.toLowerCase (label (data n)).

Definition isWebhookTrigger (n : Node) : bool :=
  String.eqb (nodeType (data n)) "trigger" && Str.includes (lowerLabel n) "webhook".

Definition getN8nNodeType (n : Node) : string :=
  let nodeType := nodeType (data n) in
  if String.eqb nodeType "trigger" then
    if Str.includes (lowerLabel n) "webhook" then trigger_webhook
    else if Str.includes (lowerLabel n) "schedule" then trigger_schedule
    else trigger_manual
  else if String.eqb nodeType "action" then
    let label := lowerLabel n in
    if Str.includes label "llm" || Str.includes label "ai" || Str.includes label "gpt"
    then action_llm_call
    else if Str.includes label "email" then action_email
    else if Str.includes label "database" || Str.includes label "db"
    then action_database
    else if Str.includes label "http" || Str.includes label "api"
    then action_http_request
    else action_code
  else if String.eqb nodeType "condition" then mapping_condition
  else if String.eqb nodeType "notification" then mapping_notification
  else function_node.

Definition getTriggerParameters (n : Node) : json :=
  let label := lowerLabel n in
  if Str.includes label "webhook" then
    JObj [("httpMethod", JStr "POST");
          ("path", JStr ("nodex-" +:+ id n));
          ("responseMode", JStr "onReceived")]
  else if Str.includes label "schedule" then
    JObj [("rule", JObj [("interval",
            JArr [JObj [("field", JStr "cronExpression");
                        ("cronExpression", JStr "0 9 * * *")]])])]
  else JObj [].

Definition getActionParameters (n : Node) : json :=
  let label := lowerLabel n in
  let description := default "" (description (data n)) in
  if Str.includes label "llm" || Str.includes label "ai" || Str.includes label "gpt" then
    JObj [("resource", JStr "chat");
          ("operation", JStr "create");
          ("model", JStr "gpt-4");
          ("messages", JObj [("values",
             JArr [JObj [("role", JStr "user");
                         ("content", JStr ("=" +:+ Str.or_else description
                                             "Process the input data: {{ $json }}"))]])]);
          ("options", JObj [("temperature", JNum (7 # 10));
                            ("maxTokens", JNum 1000)])]
  else if Str.includes label "email" then
    JObj [("fromEmail", JStr ("={{$node[" +:+ dq +:+ "Trigger" +:+ dq +:+ "].json["
                                +:+ dq +:+ "email" +:+ dq +:+ "] || " +:+ dq
                                +:+ "noreply@example.com" +:+ dq +:+ "}}"));
          ("toEmail", JStr ("={{$node[" +:+ dq +:+ "Trigger" +:+ dq +:+ "].json["
                              +:+ dq +:+ "recipient" +:+ dq +:+ "] || " +:+ dq
                              +:+ "user@example.com" +:+ dq +:+ "}}"));
          ("subject", JStr ("=" +:+ label));
          ("message", JStr ("=" +:+ Str.or_else description
                              "Automated message from Nodex workflow"));
          ("format", JStr "html")]
  else if Str.includes label "database" || Str.includes label "db" then
    JObj [("operation", JStr "insert");
          ("schema", JStr "public");
          ("table", JStr "workflow_data");
          ("columns", JStr "data, timestamp");
          ("values", JStr "={{$json}}, {{new Date().toISOString()}}")]
  else if Str.includes label "http" || Str.includes label "api" then
    JObj [("method", JStr "POST");
          ("url", JStr "https://api.example.com/webhook");
          ("sendBody", JBool true);
          ("bodyContentType", JStr "json");
          ("jsonBody", JStr "={{$json}}");
          ("options", JObj [])]
  else
    JObj [("functionCode",
           JStr ("// " +:+ label +:+ nl +:+ "// " +:+ description +:+ nl
                 +:+ "return items.map(item => {" +:+ nl
                 +:+ "  // Process item here" +:+ nl
                 +:+ "  return item.json;" +:+ nl +:+ "});"))].

Definition getConditionParameters (_ : Node) : json :=
  JObj [("conditions", JObj [("boolean",
          JArr [JObj [("value1", JStr "={{$json.status}}");
                      ("operation", JStr "equal");
                      ("value2", JStr "success")]])])].

(** A template literal prints an absent description as [undefined]. *)
Definition getValidationParameters (n : Node) : json :=
  JObj [("functionCode",
         JStr ("// Validation: " +:+ label (data n) +:+ nl
               +:+ "// " +:+ default "undefined" (description (data n)) +:+ nl +:+ nl
               +:+ "const errors = [];" +:+ nl +:+ nl
               +:+ "for (const item of items) {" +:+ nl
               +:+ "  const data = item.json;" +:+ nl
               +:+ "  " +:+ nl
               +:+ "  // Add validation logic here" +:+ nl
               +:+ "  if (!data.email) {" +:+ nl
               +:+ "    errors.push('Email is required');" +:+ nl
               +:+ "  }" +:+ nl
               +:+ "  " +:+ nl
               +:+ "  if (!data.name) {" +:+ nl
               +:+ "    errors.push('Name is required');" +:+ nl
               +:+ "  }" +:+ nl
               +:+ "}" +:+ nl +:+ nl
               +:+ "if (errors.length > 0) {" +:+ nl
               +:+ "  throw new Error('Validation failed: ' + errors.join(', '));" +:+ nl
               +:+ "}" +:+ nl +:+ nl
               +:+ "return items;"))].

(** The [default] branch of [getNodeParameters]. *)
Definition genericParameters (n : Node) : json :=
  JObj [("functionCode", JStr ("// " +:+ label (data n) +:+ nl +:+ "return items;"))].

Definition getNodeParameters (n : Node) : json :=
  let nodeType := nodeType (data n) in
  if String.eqb nodeType "trigger" then getTriggerParameters n
  else if String.eqb nodeType "action" then getActionParameters n
  else if String.eqb nodeType "condition" then getConditionParameters n
  else if String.eqb nodeType "validation" then getValidationParameters n
  else genericParameters n.

Section Environment.

(** [today] is [new Date().toISOString().split('T')[0]], [now] is
    [new Date().toISOString()], and [random_id k] is the string the
    [k]-th call of [Math.random().toString(36).substr(2, 9)] yields. *)
Variable today : string.
Variable now : string.
Variable random_id : nat -> string.

Definition generateWebhookId (k : nat) : string := "nodex-" +:+ random_id k.

(** [convertNode]; [k] counts the random numbers drawn so far. *)
Definition convertNode (k : nat) (n : Node) : N8nNode * nat :=
  let baseNode :=
    {| n8n_id := id n;
       n8n_name := label (data n);
       n8n_type := getN8nNodeType n;
       typeVersion := 1;
       n8n_position := (px (position n), py (position n));
       parameters := getNodeParameters n;
       webhookId := None;
       credentials := None |} in
  if String.eqb (nodeType (data n)) "trigger"
     && Str.includes (Str.toLowerCase (label (data n))) "webhook"
  then
    ({| n8n_id := n8n_id baseNode;
        n8n_name := n8n_name baseNode;
        n8n_type := n8n_type baseNode;
        typeVersion := typeVersion baseNode;
        n8n_position := n8n_position baseNode;
        parameters :=
          Json.spread (parameters baseNode)
            [("httpMethod", JStr "POST");
             ("path", JStr ("nodex-" +:+ id n));
             ("responseMode", JStr "onReceived");
             ("responseData",
              JStr ("{ " +:+ dq +:+ "success" +:+ dq +:+ ": true, "
                    +:+ dq +:+ "message" +:+ dq +:+ ": "
                    +:+ dq +:+ "Workflow triggered" +:+ dq +:+ " }"))];
        webhookId := Some (generateWebhookId k);
        credentials := credentials baseNode |}, S k)
  else (baseNode, k).

(** [this.nodes.map(node => this.convertNode(node))]. *)
Fixpoint convertNodes_from (k : nat) (nodes : list Node) : list N8nNode :=
  match nodes with
  | [] => []
  | n :: rest =>
      let (out, k') := convertNode k n in
      out :: convertNodes_from k' rest
  end.

Definition convertNodes (nodes : list Node) : list N8nNode :=
  convertNodes_from 0 nodes.

Definition emptyConn : Conn := {| main := [[]] |}.

(** [c.main[0].push(e)]. *)
Definition pushMain0 (e : ConnEntry) (c : Conn) : Conn :=
  {| main := alter (fun row => row ++ [e]) 0%nat (main c) |}.

(** The body of [this.edges.forEach] in [convertConnections]. *)
Definition addEdgeConnection (nodes : list Node)
    (connections : gmap string Conn) (edge : Edge) : gmap string Conn :=
  match findNode nodes (source edge), findNode nodes (target edge) with
  | Some sourceNode, Some targetNode =>
      let sourceLabel := label (data sourceNode) in
      let connections :=
        match connections !! sourceLabel with
        | None => <[sourceLabel := emptyConn]> connections
        | Some _ => connections
        end in
      alter (pushMain0 {| conn_node := label (data targetNode);
                          conn_type := "main";
                          conn_index := 0 |}) sourceLabel connections
  | _, _ => connections
  end.

Definition initConnections (nodes : list Node) : gmap string Conn :=
  foldl (fun connections n => <[label (data n) := emptyConn]> connections) ∅ nodes.

Definition convertConnections (nodes : list Node) (edges : list Edge)
  : gmap string Conn :=
  foldl (addEdgeConnection nodes) (initConnections nodes) edges.

Definition generateWorkflowName (nodes : list Node) : string :=
  match List.find (fun n => String.eqb (nodeType (data n)) "trigger") nodes with
  | Some triggerNode => label (data triggerNode) +:+ " - " +:+ today
  | None => "Nodex Workflow - " +:+ today
  end.

Definition convert (nodes : list Node) (edges : list Edge) : N8nWorkflow :=
  let n8nNodes := convertNodes nodes in
  let connections := convertConnections nodes edges in
  {| wf_name := generateWorkflowName nodes;
     wf_nodes := n8nNodes;
     wf_connections := connections;
     active := false;
     settings := JObj [("executionOrder", JStr "v1")];
     staticData := JObj [] |}.

(** [Array.from(new Set(l))]: first occurrences, in order. *)
Fixpoint dedup_first (seen l : list string) : list string :=
  match l with
  | [] => []
  | c :: rest =>
      if existsb (String.eqb c) seen then dedup_first seen rest
      else c :: dedup_first (c :: seen) rest
  end.

(** What one node pushes in [getRequiredCredentials]. *)
Definition nodeCredentials (n : Node) : list string :=
  let label := lowerLabel n in
  (if Str.includes label "llm" || Str.includes label "ai" || Str.includes label "gpt"
   then ["OpenAI API Key"] else [])
  ++ (if Str.includes label "email" then ["SMTP/Email Credentials"] else [])
  ++ (if Str.includes label "database" then ["Database Connection"] else []).

Definition getRequiredCredentials (nodes : list Node) : list string :=
  dedup_first [] (flat_map nodeCredentials nodes).

Record TestEndpoint : Type := mkEndpoint {
  ep_method : string;
  ep_url : string;
  ep_body : json;
  ep_description : string
}.

Definition generateTestEndpoints (nodes : list Node) : list TestEndpoint :=
  let webhookNodes := List.filter isWebhookTrigger nodes in
  List.map (fun n =>
    {| ep_method := "POST";
       ep_url := "http://localhost:5678/webhook/nodex-" +:+ id n;
       ep_body := JObj [("test", JStr "data"); ("timestamp", JStr now)];
       ep_description := "Test endpoint for " +:+ label (data n) |}) webhookNodes.

(** The objects handed to the caller, as property lists. *)
Definition entryObject (e : ConnEntry) : json :=
  JObj [("node", JStr (conn_node e));
        ("type", JStr (conn_type e));
        ("index", JNum (inject_Z (conn_index e)))].

Definition connObject (c : Conn) : json :=
  JObj [("main", JArr (List.map (fun row => JArr (List.map entryObject row)) (main c)))].

Definition nodeObject (n : N8nNode) : json :=
  JObj ([("id", JStr (n8n_id n));
         ("name", JStr (n8n_name n));
         ("type", JStr (n8n_type n));
         ("typeVersion", JNum (inject_Z (typeVersion n)));
         ("position", JArr [JNum (fst (n8n_position n)); JNum (snd (n8n_position n))]);
         ("parameters", parameters n)]
        ++ match webhookId n with
           | Some w => [("webhookId", JStr w)]
           | None => []
           end).

(** The object literal [convert] returns. *)
Definition workflowObject (w : N8nWorkflow) : json :=
  JObj [("name", JStr (wf_name w));
        ("nodes", JArr (List.map nodeObject (wf_nodes w)));
        ("connections",
         JObj (List.map (fun kc => (fst kc, connObject (snd kc)))
                        (map_to_list (wf_connections w))));
        ("active", JBool (active w));
        ("settings", settings w);
        ("staticData", staticData w)].

Definition endpointObject (e : TestEndpoint) : json :=
  JObj [("method", JStr (ep_method e));
        ("url", JStr (ep_url e));
        ("body", ep_body e);
        ("description", JStr (ep_description e))].

Definition generateDeploymentInstructions (nodes : list Node) (edges : list Edge)
  : json :=
  let workflow := convert nodes edges in
  JObj [("workflow", workflowObject workflow);
        ("instructions", JObj [
          ("title", JStr "Deploy to n8n");
          ("steps", JArr [
            JObj [("step", JNum 1);
                  ("title", JStr "Set up n8n");
                  ("description", JStr "Install and run n8n instance");
                  ("commands", JArr [JStr "npm install n8n -g"; JStr "n8n start"]);
                  ("notes", JStr "n8n will be available at http://localhost:5678")];
            JObj [("step", JNum 2);
                  ("title", JStr "Import Workflow");
                  ("description", JStr "Copy the workflow JSON and import to n8n");
                  ("action", JStr "Go to n8n → Click '+' → 'Import from JSON' → Paste workflow")];
            JObj [("step", JNum 3);
                  ("title", JStr "Configure Credentials");
                  ("description", JStr "Set up API keys and credentials");
                  ("credentials", JArr (List.map JStr (getRequiredCredentials nodes)))];
            JObj [("step", JNum 4);
                  ("title", JStr "Activate Workflow");
                  ("description", JStr "Turn on the workflow to start processing");
                  ("action", JStr "Toggle the workflow switch to 'Active'")];
            JObj [("step", JNum 5);
                  ("title", JStr "Test Workflow");
                  ("description", JStr "Send a test request to verify it works");
                  ("testEndpoints",
                   JArr (List.map endpointObject (generateTestEndpoints nodes)))]]);
          ("cloudOptions", JArr [
            JObj [("name", JStr "n8n Cloud");
                  ("url", JStr "https://n8n.cloud");
                  ("description", JStr "Managed n8n hosting")];
            JObj [("name", JStr "Railway");
                  ("url", JStr "https://railway.app");
                  ("description", JStr "Deploy n8n with one-click")]])])].

(** [convertToN8n]. *)
Definition convertToN8n (nodes : list Node) (edges : list Edge) : json :=
  generateDeploymentInstructions nodes edges.

End Environment.

(** *** Vocabulary of the specification *)




(** The returned object carries a warnings list: one of its properties is
    named as one. *)
Definition returnsWarnings (out : json) : Prop :=
  exists k, k ∈ Json.keys out /\ Str.includes (Str.toLowerCase k) "warning" = true.

(** The kinds [getN8nNodeType] and [getNodeParameters] dispatch on. *)
Definition typedKind (kind : string) : bool :=
  String.eqb kind "trigger" || String.eqb kind "action"
  || String.eqb kind "condition" || String.eqb kind "notification".

Definition parameterisedKind (kind : string) : bool :=
  String.eqb kind "trigger" || String.eqb kind "action"
  || String.eqb kind "condition" || String.eqb kind "validation".

(** The label of an action names one of the known services. *)
Definition actionKeyword (n : Node) : bool :=
  let label := lowerLabel n in
  Str.includes label "llm" || Str.includes label "ai" || Str.includes label "gpt"
  || Str.includes label "email"
  || Str.includes label "database" || Str.includes label "db"
  || Str.includes label "http" || Str.includes label "api".

End Translator.

(* ===================================================================== *)
(** ** Edit layer (deleteSelectedNodes, handleDelete) *)
(* ===================================================================== *)

Module Editor.

(** One call of [addChatMessage(role, content)]. *)
Record ChatCall : Type := mkChat { role : string; content : string }.

(** The React state the deletion handlers read and write, with the calls
    made to [addChatMessage] so far (oldest first). *)
Record Canvas : Type := mkCanvas {
  nodes : list Node;
  edges : list Edge;
  selectedNodes : list string;
  chat : list ChatCall
}.

(** [arr.includes(s)] on strings. *)
Definition includes (arr : list string) (s : string) : bool :=
  existsb (String.eqb s) arr.

Definition addChatMessage (r c : string) (st : Canvas) : Canvas :=
  {| nodes := nodes st; edges := edges st;
     selectedNodes := selectedNodes st;
     chat := chat st ++ [{| role := r; content := c |}] |}.

Definition lockedSelection (st : Canvas) : list Node :=
  let selectedNodeData := List.filter (fun n => includes (selectedNodes st) (id n)) (nodes st) in
  List.filter (fun n => locked (data n)) selectedNodeData.

Definition deleteSelectedNodes (st : Canvas) : Canvas :=
  if Nat.eqb (length (selectedNodes st)) 0 then
    addChatMessage "system" "No nodes selected for deletion" st
  else
    let lockedNodes := lockedSelection st in
    if Nat.ltb 0 (length lockedNodes) then
      addChatMessage "system"
        ("⚠️ Cannot delete " +:+ pretty (length lockedNodes)
         +:+ " compliance node(s) - they are locked") st
    else
      let newNodes := List.filter (fun n => negb (includes (selectedNodes st) (id n))) (nodes st) in
      let newEdges := List.filter (fun e =>
          negb (includes (selectedNodes st) (source e))
          && negb (includes (selectedNodes st) (target e))) (edges st) in
      addChatMessage "system"
        ("Deleted " +:+ pretty (length (selectedNodes st))
         +:+ " node(s) and connected edges")
        {| nodes := newNodes; edges := newEdges; selectedNodes := []; chat := chat st |}.

(** The context-menu editor keeps its own nodes and edges. [deleteNode]
    filters both by the node id. *)
Record MenuCanvas : Type := mkMenu {
  m_nodes : list Node;
  m_edges : list Edge;
  contextMenuNode : option Node
}.

Definition deleteNode (nodeId : string) (st : MenuCanvas) : MenuCanvas :=
  {| m_nodes := List.filter (fun n => negb (String.eqb (id n) nodeId)) (m_nodes st);
     m_edges := List.filter (fun e => negb (String.eqb (source e) nodeId)
                                      && negb (String.eqb (target e) nodeId)) (m_edges st);
     contextMenuNode := contextMenuNode st |}.

Definition handleDelete (st : MenuCanvas) : MenuCanvas :=
  let st' :=
    match contextMenuNode st with
    | Some n => if negb (locked (data n)) then deleteNode (id n) st else st
    | None => st
    end in
  {| m_nodes := m_nodes st'; m_edges := m_edges st'; contextMenuNode := None |}.

(** *** Vocabulary of the specification *)

(** The references of all edges resolve to nodes of the canvas. *)
Definition edgesResolve (ns : list Node) (es : list Edge) : Prop :=
  forall e, e ∈ es ->
    (exists n, n ∈ ns /\ id n = source e) /\ (exists n, n ∈ ns /\ id n = target e).


End Editor.

(* ===================================================================== *)
(** ** Layout solver (findFreePosition, arrangeNodesIntelligently) *)
(* ===================================================================== *)

Module Layout.

Definition nodeWidth : Z := 150.
Definition nodeHeight : Z := 80.
Definition minSpacing : Z := 10.

(** [Math.max(a, b)]. *)
Definition js_max (a b : Q) : Q := if Qle_bool a b then b else a.

(** The callback of [allPositionsToCheck.some] in [isPositionFree]. *)
Definition overlaps (testX testY : Q) (pos : XY) : bool :=
  let ex := px pos in
  let ey := py pos in
  let rightEdgeNew := (testX + inject_Z nodeWidth)%Q in
  let bottomEdgeNew := (testY + inject_Z nodeHeight)%Q in
  let rightEdgeExisting := (ex + inject_Z nodeWidth)%Q in
  let bottomEdgeExisting := (ey + inject_Z nodeHeight)%Q in
  let horizontalOverlap :=
    negb (Qle_bool (rightEdgeNew + inject_Z minSpacing) ex
          || Qle_bool (rightEdgeExisting + inject_Z minSpacing) testX) in
  let verticalOverlap :=
    negb (Qle_bool (bottomEdgeNew + inject_Z minSpacing) ey
          || Qle_bool (bottomEdgeExisting + inject_Z minSpacing) testY) in
  horizontalOverlap && verticalOverlap.

Definition isPositionFree (allPositions pendingPositions : list XY)
    (testX testY : Q) : bool :=
  let allPositionsToCheck := allPositions ++ pendingPositions in
  let hasOverlap := existsb (overlaps testX testY) allPositionsToCheck in
  negb hasOverlap.

(** [for (v = start; ...; v += step) { if (hit) return hit }] over [n] rounds:
    the first round that returns ends the loop. *)
Fixpoint for_steps {A : Type} (n : nat) (start step : Z) (body : Z -> option A)
  : option A :=
  match n with
  | O => None
  | S n' =>
      match body start with
      | Some r => Some r
      | None => for_steps n' (start + step)%Z step body
      end
  end.

Section FindFreePosition.

(** [cos_deg a] is [Math.cos(a * Math.PI / 180)], [sin_deg] likewise;
    [rand1] and [rand2] are the two draws of [Math.random()]. *)
Variables cos_deg sin_deg : Z -> Q.
Variables rand1 rand2 : Q.

(** The refs [allPositions.current] and [pendingPositions.current]. *)
Variables allPositions pendingPositions : list XY.

Definition tryPosition (x y : Q) : option XY :=
  if isPositionFree allPositions pendingPositions x y
  then Some {| px := x; py := y |} else None.

Definition gridSpacing : Z := nodeWidth + minSpacing + 20.
Definition startX : Z := 50.
Definition startY : Z := 50.
Definition spiralRadius : Z := 50.

Definition gridSearch : option XY :=
  for_steps 10 0 1 (fun row =>
    for_steps 8 0 1 (fun col =>
      let x := inject_Z (startX + col * gridSpacing) in
      let y := inject_Z (startY + row * (nodeHeight + minSpacing + 20)) in
      tryPosition x y)).

Definition spiralSearch (preferredX preferredY : option Q) : option XY :=
  for_steps 8 spiralRadius spiralRadius (fun radius =>
    for_steps 8 0 45 (fun angle =>
      let x := (default 300 preferredX + inject_Z radius * cos_deg angle)%Q in
      let y := (default 200 preferredY + inject_Z radius * sin_deg angle)%Q in
      let x := js_max 50 x in
      let y := js_max 50 y in
      tryPosition x y)).

(** The absolute fallback: accepted without a test. *)
Definition randomFallback (preferredX preferredY : option Q) : XY :=
  {| px := js_max 50 (default 100 preferredX + rand1 * 200)%Q;
     py := js_max 50 (default 100 preferredY + rand2 * 200)%Q |}.

Definition findFreePosition (preferredX preferredY : option Q) : XY :=
  let x := default 100%Q preferredX in
  let y := default 100%Q preferredY in
  match tryPosition x y with
  | Some p => p
  | None =>
      match gridSearch with
      | Some p => p
      | None =>
          match spiralSearch preferredX preferredY with
          | Some p => p
          | None => randomFallback preferredX preferredY
          end
      end
  end.

End FindFreePosition.

(** *** The search order of the specification *)








(** Cosine and sine of the angles of the spiral, to four decimals. *)
Definition cosTable (angle : Z) : Q :=
  if (angle =? 0)%Z then 1
  else if (angle =? 45)%Z || (angle =? 315)%Z then 7071 # 10000
  else if (angle =? 135)%Z || (angle =? 225)%Z then - (7071 # 10000)
  else if (angle =? 180)%Z then - 1
  else 0.

Definition sinTable (angle : Z) : Q :=
  if (angle =? 90)%Z then 1
  else if (angle =? 45)%Z || (angle =? 135)%Z then 7071 # 10000
  else if (angle =? 225)%Z || (angle =? 315)%Z then - (7071 # 10000)
  else if (angle =? 270)%Z then - 1
  else 0.

(** *** Full rearrangement *)

Definition sectionSpacing : Z := 40.
Definition baseX : Z := 50.
Definition horizontalSpacing : Z := nodeWidth + minSpacing + 20.
Definition verticalSpacing : Z := nodeHeight + minSpacing + 20.

Definition isTrigger (n : Node) : bool :=
  String.eqb (nodeType (data n)) "trigger" || String.eqb (nodeType (data n)) "manual".
Definition isAction (n : Node) : bool :=
  String.eqb (nodeType (data n)) "action" || String.eqb (nodeType (data n)) "condition".
Definition isOutput (n : Node) : bool :=
  String.eqb (nodeType (data n)) "database" || String.eqb (nodeType (data n)) "notification".
Definition isCompliance (n : Node) : bool := locked (data n).
Definition isOther (n : Node) : bool :=
  negb (isTrigger n) && negb (isAction n) && negb (isOutput n) && negb (isCompliance n).

(** [newNodes.filter(p)] keeps references to the node objects: the result
    is the list of their indices in [newNodes]. *)
Fixpoint refsFrom (i : nat) (p : Node -> bool) (l : list Node) : list nat :=
  match l with
  | [] => []
  | n :: rest => if p n then i :: refsFrom (S i) p rest else refsFrom (S i) p rest
  end.

Definition refs (p : Node -> bool) (newNodes : list Node) : list nat :=
  refsFrom 0 p newNodes.

Definition setPosition (x y : Z) (n : Node) : Node :=
  {| id := id n; position := {| px := inject_Z x; py := inject_Z y |}; data := data n |}.

(** [group.forEach((node, index) => { node.position = pos(index) })] on the
    shared node objects. *)
Fixpoint placeEach (index : nat) (group : list nat) (pos : Z -> Z * Z)
    (store : list Node) : list Node :=
  match group with
  | [] => store
  | r :: rest =>
      let p := pos (Z.of_nat index) in
      placeEach (S index) rest pos (alter (setPosition (fst p) (snd p)) r store)
  end.

(** [Math.ceil(Math.sqrt(n))] and [Math.ceil(n / d)] on counts. *)
Definition ceilSqrt (n : Z) : Z := Z.sqrt_up n.
Definition ceilDiv (n d : Z) : Z := (- ((- n) / d))%Z.

Definition perRow (cap count : Z) : Z := Z.min cap (Z.max 2 (ceilSqrt count)).

(** The positions the five [forEach] loops assign at [index]. *)
Definition rowPos (currentY : Z) (index : Z) : Z * Z :=
  (baseX + index * horizontalSpacing, currentY)%Z.

Definition gridPos (perRow currentY : Z) (index : Z) : Z * Z :=
  let row := (index / perRow)%Z in
  let col := (index mod perRow)%Z in
  (baseX + col * horizontalSpacing, currentY + row * verticalSpacing)%Z.

Definition compliancePos (complianceStartX : Z) (index : Z) : Z * Z :=
  (complianceStartX, 50 + index * verticalSpacing)%Z.

(** [if (count > 0) currentY += rows * verticalSpacing + sectionSpacing]
    with [rows = Math.ceil(count / perRow)]. *)
Definition afterGrid (count perRow currentY : Z) : Z :=
  if (0 <? count)%Z then
    let rows := ceilDiv count perRow in
    (currentY + (rows * verticalSpacing + sectionSpacing))%Z
  else currentY.

Definition arrangeNodesIntelligently (newNodes : list Node) : list Node :=
  let triggers := refs isTrigger newNodes in
  let actions := refs isAction newNodes in
  let outputs := refs isOutput newNodes in
  let compliance := refs isCompliance newNodes in
  let others := refs isOther newNodes in
  let len (l : list nat) := Z.of_nat (length l) in
  let currentY := 50%Z in
  let store := placeEach 0 triggers (rowPos currentY) newNodes in
  let currentY :=
    if (0 <? len triggers)%Z then (currentY + (verticalSpacing + sectionSpacing))%Z
    else currentY in
  let actionsPerRow := perRow 4 (len actions) in
  let store := placeEach 0 actions (gridPos actionsPerRow currentY) store in
  let currentY := afterGrid (len actions) actionsPerRow currentY in
  let othersPerRow := perRow 3 (len others) in
  let store := placeEach 0 others (gridPos othersPerRow currentY) store in
  let currentY := afterGrid (len others) othersPerRow currentY in
  let store := placeEach 0 outputs (rowPos currentY) store in
  let complianceStartX :=
    (baseX + Z.max (Z.max actionsPerRow othersPerRow) (len outputs) * horizontalSpacing
     + sectionSpacing)%Z in
  let store := placeEach 0 compliance (compliancePos complianceStartX) store in
  store.

(** The index at which [group] holds the reference [r], counted from [k]. *)
Fixpoint slotFrom (k : nat) (group : list nat) (r : nat) : option nat :=
  match group with
  | [] => None
  | r0 :: rest => if Nat.eqb r0 r then Some k else slotFrom (S k) rest r
  end.


(** Two footprints keep the spacing: the edge-to-edge gap is at least
    [minSpacing] along x or along y. *)
Definition separated (a b : XY) : Prop :=
  (px a + inject_Z nodeWidth + inject_Z minSpacing <= px b
   \/ px b + inject_Z nodeWidth + inject_Z minSpacing <= px a
   \/ py a + inject_Z nodeHeight + inject_Z minSpacing <= py b
   \/ py b + inject_Z nodeHeight + inject_Z minSpacing <= py a)%Q.





End Layout.

(* ===================================================================== *)
(** ** Invariant enforcer *)
(* ===================================================================== *)

(** The enforcer runs on the server and is not part of the sources at hand;
    this module follows sections 3, 4.1, 4.2 and 7 of the specification. *)
Module Enforcer.

(** Modelled from the spec: the [kind] enumeration of a Node (section 3);
    the server-side graph model is missing from the sources. *)
Inductive Kind : Type :=
| trigger | action | condition | validation | notification | audit | terminal | generic.

(** Modelled from the spec: the Node of section 3, with the compliance-type
    marker that step 1 of section 4.2 reads from injected nodes. *)
Record CNode : Type := mkCNode {
  nid : string;
  kind : Kind;
  nlabel : string;
  ndescription : string;
  nposition : Q * Q;
  nlocked : bool;
  complianceReason : option string;
  domainTag : option string;
  complianceType : option string
}.

(** Modelled from the spec: the Edge of section 3. *)
Record CEdge : Type := mkCEdge {
  eid : string;
  sourceNodeId : string;
  targetNodeId : string
}.

(** Modelled from the spec: the Graph of section 3, nodes and edges in the
    order of their insertion. *)
Record Graph : Type := mkGraph {
  gnodes : list CNode;
  gedges : list CEdge
}.

(** Modelled from the spec: the anchor modes of a RequiredStep. *)
Inductive AnchorMode : Type :=
| beforeLabelMatch | afterLabelMatch | atStart | atEnd.

Record Anchor : Type := mkAnchor {
  mode : AnchorMode;
  matchKeyword : option string
}.

(** Modelled from the spec: the RequiredStep policy datum of section 3; a
    rule set applied to a graph is the sequence of the steps of its domain. *)
Record RequiredStep : Type := mkStep {
  stepLabel : string;
  stepComplianceType : string;
  anchor : Anchor;
  reason : string
}.

(** Modelled from the spec: the identifiers of synthesized nodes and edges
    are not fixed by the specification; a supply names them from the graph
    they are added to. *)
Record IdSupply : Type := mkSupply {
  nodeIdFor : Graph -> RequiredStep -> string;
  edgeIdFor : Graph -> RequiredStep -> nat -> string
}.

(** Modelled from the spec: the outcome of [validate] and of [enforce]: a
    ValidationError with the findings, or the graph with the warnings
    recorded on the way (section 7). *)
Inductive Outcome : Type :=
| Rejected (errors : list string)
| Enforced (g : Graph) (warnings : list string).

(** Case-insensitive containment of a keyword. *)
Definition containsWord (text keyword : string) : bool :=
  Str.includes (Str.toLowerCase text) (Str.toLowerCase keyword).

(** Modelled from the spec: step 1 of section 4.2, a node whose compliance
    type matches the step: it carries the same compliance type, or its
    compliance type contains the match keyword, case-insensitively. *)
Definition matchesStep (s : RequiredStep) (n : CNode) : bool :=
  match complianceType n with
  | Some ct =>
      String.eqb ct (stepComplianceType s)
      || match matchKeyword (anchor s) with
         | Some keyword => containsWord ct keyword
         | None => false
         end
  | None => false
  end.

(** Modelled from the spec: the search of step 1. A locked match satisfies
    the step. For a match that is not locked the specification names no
    action: with [lockedOnly] such a node does not count as found and the
    step is synthesized, without it the node counts as found. *)
Definition satisfiesStep (lockedOnly : bool) (s : RequiredStep) (n : CNode) : bool :=
  matchesStep s n && (if lockedOnly then nlocked n else true).

Definition findMatch (lockedOnly : bool) (s : RequiredStep) (g : Graph) : option CNode :=
  List.find (satisfiesStep lockedOnly s) (gnodes g).

(** Modelled from the spec: step 2, the kind of a synthesized node, by the
    convention validation / audit / notification. *)
Definition kindOfCompliance (ct : string) : Kind :=
  if containsWord ct "audit" then audit
  else if containsWord ct "notif" then notification
  else validation.

(** Modelled from the spec: step 2 of section 4.2, the synthesized node. Its
    position is left to the layout solver. *)
Definition synthesize (ids : IdSupply) (g : Graph) (s : RequiredStep) : CNode :=
  {| nid := nodeIdFor ids g s;
     kind := kindOfCompliance (stepComplianceType s);
     nlabel := stepLabel s;
     ndescription := reason s;
     nposition := (0, 0)%Q;
     nlocked := true;
     complianceReason := Some (reason s);
     domainTag := None;
     complianceType := Some (stepComplianceType s) |}.

(** Where a synthesized node goes, once the anchor is resolved. *)
Inductive Place : Type :=
| Before (anchorId : string)
| After (anchorId : string)
| AtStart
| AtEnd.

(** Modelled from the spec: the first existing node whose label contains the
    keyword, case-insensitively. *)
Definition findAnchor (g : Graph) (keyword : option string) : option CNode :=
  match keyword with
  | Some k => List.find (fun n => containsWord (nlabel n) k) (gnodes g)
  | None => None
  end.

(** Modelled from the spec: step 3 of section 4.2; a label anchor that
    matches no node falls back to the start or the end with a warning. *)
Definition resolveAnchor (g : Graph) (s : RequiredStep) : Place * list string :=
  match mode (anchor s) with
  | beforeLabelMatch =>
      match findAnchor g (matchKeyword (anchor s)) with
      | Some a => (Before (nid a), [])
      | None => (AtStart, ["AnchorNotFoundWarning: " +:+ stepLabel s])
      end
  | afterLabelMatch =>
      match findAnchor g (matchKeyword (anchor s)) with
      | Some a => (After (nid a), [])
      | None => (AtEnd, ["AnchorNotFoundWarning: " +:+ stepLabel s])
      end
  | atStart => (AtStart, [])
  | atEnd => (AtEnd, [])
  end.

(** Entry nodes have no incoming edge, terminal nodes no outgoing edge. *)
Definition isEntry (g : Graph) (n : CNode) : bool :=
  negb (existsb (fun e => String.eqb (targetNodeId e) (nid n)) (gedges g)).

Definition isTerminal (g : Graph) (n : CNode) : bool :=
  negb (existsb (fun e => String.eqb (sourceNodeId e) (nid n)) (gedges g)).

(** The edges [new -> t] (or [t -> new]) for the nodes [ts], named by the
    supply from index [k] on. *)
Fixpoint linkAll (ids : IdSupply) (g : Graph) (s : RequiredStep) (outgoing : bool)
    (new : string) (k : nat) (ts : list CNode) : list CEdge :=
  match ts with
  | [] => []
  | t :: rest =>
      (if outgoing
       then {| eid := edgeIdFor ids g s k; sourceNodeId := new; targetNodeId := nid t |}
       else {| eid := edgeIdFor ids g s k; sourceNodeId := nid t; targetNodeId := new |})
      :: linkAll ids g s outgoing new (S k) rest
  end.

(** Modelled from the spec: step 4 of section 4.2, the edge set after the
    splice. Before an anchor A every edge P -> A becomes P -> new and the
    edge new -> A is added; after an anchor symmetrically; at the start the
    new node precedes all entry nodes, at the end it follows all terminal
    nodes. *)
Definition spliceEdges (ids : IdSupply) (g : Graph) (s : RequiredStep)
    (new : string) (place : Place) : list CEdge :=
  match place with
  | Before a =>
      List.map (fun e =>
        if String.eqb (targetNodeId e) a
        then {| eid := eid e; sourceNodeId := sourceNodeId e; targetNodeId := new |}
        else e) (gedges g)
      ++ [{| eid := edgeIdFor ids g s 0; sourceNodeId := new; targetNodeId := a |}]
  | After a =>
      List.map (fun e =>
        if String.eqb (sourceNodeId e) a
        then {| eid := eid e; sourceNodeId := new; targetNodeId := targetNodeId e |}
        else e) (gedges g)
      ++ [{| eid := edgeIdFor ids g s 0; sourceNodeId := a; targetNodeId := new |}]
  | AtStart =>
      gedges g ++ linkAll ids g s true new 0 (List.filter (isEntry g) (gnodes g))
  | AtEnd =>
      gedges g ++ linkAll ids g s false new 0 (List.filter (isTerminal g) (gnodes g))
  end.

(** [l] has an element twice. *)
Fixpoint hasDuplicate (l : list string) : bool :=
  match l with
  | [] => false
  | x :: rest => existsb (String.eqb x) rest || hasDuplicate rest
  end.

(** Modelled from the spec: [validate] of section 4.1: duplicate ids,
    dangling edges and self-loops. *)
Definition validate (g : Graph) : list string :=
  let ids := List.map nid (gnodes g) in
  (if hasDuplicate ids || hasDuplicate (List.map eid (gedges g))
   then ["duplicate id"] else [])
  ++ (if forallb (fun e => existsb (String.eqb (sourceNodeId e)) ids
                           && existsb (String.eqb (targetNodeId e)) ids) (gedges g)
      then [] else ["dangling edge"])
  ++ (if existsb (fun e => String.eqb (sourceNodeId e) (targetNodeId e)) (gedges g)
      then ["self-loop"] else []).

(** Modelled from the spec: one round of the loop of section 4.2 for the
    step [s]. When the search of step 1 finds its node the round is skipped;
    when it finds none a node is synthesized, anchored, spliced in and the
    graph validated again. *)
Definition enforceStep (ids : IdSupply) (lockedOnly : bool) (s : RequiredStep)
    (g : Graph) (warnings : list string) : Outcome :=
  match findMatch lockedOnly s g with
  | Some _ => Enforced g warnings
  | None =>
      let new := synthesize ids g s in
      let (place, ws) := resolveAnchor g s in
      let g' := {| gnodes := gnodes g ++ [new];
                   gedges := spliceEdges ids g s (nid new) place |} in
      match validate g' with
      | [] => Enforced g' (warnings ++ ws)
      | errors => Rejected errors
      end
  end.

(** The loop over the rule set, in its declared order. *)
Fixpoint enforceSteps (ids : IdSupply) (lockedOnly : bool) (steps : list RequiredStep)
    (g : Graph) (warnings : list string) : Outcome :=
  match steps with
  | [] => Enforced g warnings
  | s :: rest =>
      match enforceStep ids lockedOnly s g warnings with
      | Rejected errors => Rejected errors
      | Enforced g' warnings' => enforceSteps ids lockedOnly rest g' warnings'
      end
  end.

(** Modelled from the spec: [enforce(graph, ruleSet)] of section 4.2, a pure
    function of its input. *)
Definition enforce (ids : IdSupply) (lockedOnly : bool) (g : Graph)
    (ruleSet : list RequiredStep) : Outcome :=
  enforceSteps ids lockedOnly ruleSet g [].

(** Enforcing the result of an enforcement again; a rejected graph stays
    rejected. *)
Definition enforceAgain (ids : IdSupply) (lockedOnly : bool)
    (ruleSet : list RequiredStep) (o : Outcome) : Outcome :=
  match o with
  | Rejected errors => Rejected errors
  | Enforced g _ => enforce ids lockedOnly g ruleSet
  end.

Definition graphOf (o : Outcome) : option Graph :=
  match o with
  | Rejected _ => None
  | Enforced g _ => Some g
  end.

(** Two graphs are the same up to the ids of their nodes: a renaming of ids,
    one-to-one on the ids of the first graph, carries the nodes and edges of
    the first to those of the second. *)
Definition renameNode (f : string -> string) (n : CNode) : CNode :=
  {| nid := f (nid n); kind := kind n; nlabel := nlabel n;
     ndescription := ndescription n; nposition := nposition n;
     nlocked := nlocked n; complianceReason := complianceReason n;
     domainTag := domainTag n; complianceType := complianceType n |}.

Definition renameEdge (f : string -> string) (e : CEdge) : CEdge :=
  {| eid := eid e; sourceNodeId := f (sourceNodeId e); targetNodeId := f (targetNodeId e) |}.

Definition isomorphic (g1 g2 : Graph) : Prop :=
  exists f : string -> string,
    (forall a b, a ∈ gnodes g1 -> b ∈ gnodes g1 -> f (nid a) = f (nid b) -> nid a = nid b)
    /\ List.map (renameNode f) (gnodes g1) = gnodes g2
    /\ List.map (renameEdge f) (gedges g1) = gedges g2.

Definition sameOutcome (o1 o2 : Outcome) : Prop :=
  match graphOf o1, graphOf o2 with
  | Some g1, Some g2 => isomorphic g1 g2
  | None, None => True
  | _, _ => False
  end.

End Enforcer.

(* ===================================================================== *)
(** ** The n8n API client (N8nApiClient.generateWebhookUrls) *)
(* ===================================================================== *)

Module ApiClient.

(** [generateWebhookUrls]: the client reads the nodes of its converter. *)
Definition generateWebhookUrls (baseUrl : string) (nodes : list Node) : list string :=
  let webhookNodes :=
    List.filter (fun n =>
      String.eqb (nodeType (data n)) "trigger"
      && Str.includes (Str.toLowerCase (label (data n))) "webhook") nodes in
  List.map (fun n => baseUrl +:+ "/webhook/nodex-" +:+ id n) webhookNodes.

(** [N8N_CONFIGS.local.baseUrl]. *)
Definition N8N_CONFIGS_local : string := "http://localhost:5678/api/v1".

End ApiClient.

(* ===================================================================== *)
(** ** Further vocabulary for the translator *)
(* ===================================================================== *)

Module TranslatorSpec.


(** The [path] parameter of the node that [convertNode] emits. *)
Definition webhookPath (n : Node) : string :=
  match Json.get "path" (Translator.parameters (fst (Translator.convertNode (fun _ => "") 0 n))) with
  | Some (JStr p) => p
  | _ => ""
  end.

(** The requirement names [getRequiredCredentials] can list. *)
Definition credentialNames : list string :=
  ["OpenAI API Key"; "SMTP/Email Credentials"; "Database Connection"].

(** The webhook ids of the emitted nodes, in node order. *)
Definition webhookIds (out : list Translator.N8nNode) : list string :=
  omap Translator.webhookId out.

End TranslatorSpec.

(* ===================================================================== *)
(** ** The context menu of the canvas (WorkflowCanvas.deleteNode) *)
(* ===================================================================== *)

Module CanvasMenu.

(** The arguments of the [onFlowChange] call in [deleteNode]: the filtered
    nodes together with the [edges] of the render, which the filter of
    [setEdges] has not touched. *)
Definition reportedFlow (nodeId : string) (st : Editor.MenuCanvas)
  : list Node * list Edge :=
  (List.filter (fun n => negb (String.eqb (id n) nodeId)) (Editor.m_nodes st),
   Editor.m_edges st).

End CanvasMenu.

(* ===================================================================== *)
(** ** Further vocabulary for the layout solver *)
(* ===================================================================== *)

Module LayoutSpec.


(** Two node lists that differ at most in the positions. *)
Definition sameButPosition (a b : list Node) : Prop :=
  List.map id a = List.map id b /\ List.map data a = List.map data b.

(** The nodes at index [r] agree in id and data. *)
Definition relatedAt (a b : list Node) (r : nat) : Prop :=
  id <$> a !! r = id <$> b !! r /\ data <$> a !! r = data <$> b !! r.

End LayoutSpec.

(* ===================================================================== *)
(** ** The code-generation client (OpenHandsApiClient) *)
(* ===================================================================== *)

Module OpenHands.

Definition determineLanguage (n : Node) : string :=
  let label := label (data n) in
  if Str.includes (Str.toLowerCase label) "ai"
     || Str.includes (Str.toLowerCase label) "llm"
     || Str.includes (Str.toLowerCase label) "ml"
  then "python"
  else if String.eqb (nodeType (data n)) "condition"
          || Str.includes (Str.toLowerCase label) "performance"
  then "go"
  else "python".

Definition determineFramework (n : Node) : string :=
  let language := determineLanguage n in
  if String.eqb language "python" then "fastapi"
  else if String.eqb language "nodejs" then "express"
  else if String.eqb language "go" then "gin"
  else if String.eqb language "java" then "spring"
  else "fastapi".

Definition determineHttpMethod (nodeType : string) : string :=
  if String.eqb nodeType "trigger" then "POST"
  else if String.eqb nodeType "action" then "POST"
  else if String.eqb nodeType "condition" then "GET"
  else if String.eqb nodeType "validation" then "POST"
  else if String.eqb nodeType "notification" then "POST"
  else "POST".

(** The [connections] field of a task in [analyzeWorkflowNodes]: the labels
    of the targets of the edges that leave the node, [unknown] for a target
    that is not on the canvas. *)
Definition taskConnections (nodes : list Node) (edges : list Edge) (n : Node)
  : list string :=
  List.map (fun e =>
      match findNode nodes (target e) with
      | Some t => Str.or_else (label (data t)) "unknown"
      | None => "unknown"
      end)
    (List.filter (fun e => String.eqb (source e) (id n)) edges).

End OpenHands.

(* ===================================================================== *)
(** ** The workflow code generator (codeGenerator.ts) *)
(* ===================================================================== *)

Module CodeGen.

Definition underscore : ascii := ascii_of_nat 95.

(** The character class [[a-zA-Z0-9]]. *)
Definition isAlnum (c : ascii) : bool :=
  let n := nat_of_ascii c in
  (Nat.leb 48 n && Nat.leb n 57)
  || (Nat.leb 65 n && Nat.leb n 90)
  || (Nat.leb 97 n && Nat.leb n 122).

(** [s.replace(/[^a-zA-Z0-9]/g, '_')]. *)
Fixpoint replaceNonAlnum (s : string) : string :=
  match s with
  | EmptyString => EmptyString
  | String c rest =>
      String (if isAlnum c then c else underscore) (replaceNonAlnum rest)
  end.

(** [s.replace(/_+/g, '_')]: every run of underscores becomes one. *)
Fixpoint collapseUnderscores (s : string) : string :=
  match s with
  | EmptyString => EmptyString
  | String c rest =>
      if Ascii.eqb c underscore then
        match rest with
        | String c' _ =>
            if Ascii.eqb c' underscore then collapseUnderscores rest
            else String c (collapseUnderscores rest)
        | EmptyString => String c EmptyString
        end
      else String c (collapseUnderscores rest)
  end.

(** Dropping the last character when it is an underscore. *)
Fixpoint dropTrailingUnderscore (s : string) : string :=
  match s with
  | EmptyString => EmptyString
  | String c EmptyString => if Ascii.eqb c underscore then EmptyString else s
  | String c rest => String c (dropTrailingUnderscore rest)
  end.

(** [s.replace(/^_|_$/g, '')]: an underscore at the start goes, and so does
    one at the end of what remains. *)
Definition stripUnderscores (s : string) : string :=
  match s with
  | String c rest =>
      if Ascii.eqb c underscore then dropTrailingUnderscore rest
      else dropTrailingUnderscore s
  | EmptyString => EmptyString
  end.

(** The [cleaned] label of [generateFunctionName]. *)
Definition cleanLabel (label : string) : string :=
  Str.toLowerCase (stripUnderscores (collapseUnderscores (replaceNonAlnum label))).

(** [generateFunctionName]; node ids are ASCII strings. *)
Definition generateFunctionName (label nodeId : string) : string :=
  let cleaned := cleanLabel label in
  Str.or_else cleaned ("node_" +:+ replaceNonAlnum nodeId).

(** The character class [[a-z0-9_]]. *)
Definition isNameChar (c : ascii) : bool :=
  let n := nat_of_ascii c in
  (Nat.leb 48 n && Nat.leb n 57)
  || (Nat.leb 97 n && Nat.leb n 122)
  || Ascii.eqb c underscore.

Fixpoint allChars (p : ascii -> bool) (s : string) : bool :=
  match s with
  | EmptyString => true
  | String c rest => p c && allChars p rest
  end.

Definition firstChar (s : string) : option ascii :=
  match s with
  | String c _ => Some c
  | EmptyString => None
  end.

Fixpoint lastChar (s : string) : option ascii :=
  match s with
  | EmptyString => None
  | String c EmptyString => Some c
  | String _ rest => lastChar rest
  end.

(** No two underscores in a row. *)
Fixpoint noDoubleUnderscore (s : string) : bool :=
  match s with
  | EmptyString => true
  | String c rest =>
      negb (Ascii.eqb c underscore
            && match rest with
               | String c' _ => Ascii.eqb c' underscore
               | EmptyString => false
               end)
      && noDoubleUnderscore rest
  end.

(** A name in lower case, of letters, digits and single underscores that
    neither starts nor ends with an underscore. *)
Definition cleanName (s : string) : bool :=
  allChars isNameChar s
  && negb (bool_decide (firstChar s = Some underscore))
  && negb (bool_decide (lastChar s = Some underscore))
  && noDoubleUnderscore s.

(** What one node adds to the dependencies in [getDependencies]. *)
Definition addNodeDependencies (deps : gmap string string) (n : Node)
  : gmap string string :=
  let label := Str.toLowerCase (label (data n)) in
  if String.eqb (nodeType (data n)) "trigger" then
    if Str.includes label "schedule" then <["node-cron" := "^3.0.3"]> deps else deps
  else if String.eqb (nodeType (data n)) "action" then
    let deps :=
      if Str.includes label "llm" || Str.includes label "ai" || Str.includes label "gpt"
      then <["openai" := "^4.20.1"]> deps else deps in
    let deps :=
      if Str.includes label "email" then <["nodemailer" := "^6.9.7"]> deps else deps in
    if Str.includes label "database" || Str.includes label "db"
    then <["pg" := "^8.11.3"]> (<["mysql2" := "^3.6.5"]> deps)
    else deps
  else deps.

Definition baseDependencies : gmap string string :=
  <["dotenv" := "^16.0.3"]> (<["cors" := "^2.8.5"]> (<["express" := "^4.18.2"]> ∅)).

Definition getDependencies (nodes : list Node) : gmap string string :=
  foldl addNodeDependencies baseDependencies nodes.

(** The node calls for the package [k]. *)
Definition needsPackage (k : string) (n : Node) : bool :=
  let label := Str.toLowerCase (label (data n)) in
  if String.eqb k "node-cron" then
    String.eqb (nodeType (data n)) "trigger" && Str.includes label "schedule"
  else if String.eqb k "openai" then
    String.eqb (nodeType (data n)) "action"
    && (Str.includes label "llm" || Str.includes label "ai" || Str.includes label "gpt")
  else if String.eqb k "nodemailer" then
    String.eqb (nodeType (data n)) "action" && Str.includes label "email"
  else if String.eqb k "mysql2" || String.eqb k "pg" then
    String.eqb (nodeType (data n)) "action"
    && (Str.includes label "database" || Str.includes label "db")
  else false.

(** The version [getDependencies] records for a package a node calls for. *)
Definition packageVersion (k : string) : string :=
  if String.eqb k "node-cron" then "^3.0.3"
  else if String.eqb k "openai" then "^4.20.1"
  else if String.eqb k "nodemailer" then "^6.9.7"
  else if String.eqb k "mysql2" then "^3.6.5"
  else if String.eqb k "pg" then "^8.11.3"
  else "".

(** [if (deps[k])]: the key is present with a non-empty version. *)
Definition hasDependency (deps : gmap string string) (k : string) : bool :=
  match deps !! k with
  | Some v => negb (String.eqb v "")
  | None => false
  end.

(** [arr.join(sep)]. *)
Definition join (sep : string) (parts : list string) : string :=
  match parts with
  | [] => ""
  | p :: rest => foldl (fun acc q => acc +:+ sep +:+ q) p rest
  end.

(** The lines of [generateImports], before they are joined. *)
Definition importLines (nodes : list Node) : list string :=
  let deps := getDependencies nodes in
  ["const express = require('express');"]
  ++ (if hasDependency deps "node-cron" then ["const cron = require('node-cron');"] else [])
  ++ (if hasDependency deps "openai" then ["const { OpenAI } = require('openai');"] else [])
  ++ (if hasDependency deps "nodemailer"
      then ["const nodemailer = require('nodemailer');"] else [])
  ++ (if hasDependency deps "mysql2"
      then ["const mysql = require('mysql2/promise');"] else [])
  ++ (if hasDependency deps "cors" then ["const cors = require('cors');"] else [])
  ++ ["require('dotenv').config();"].

Definition generateImports (nodes : list Node) : string :=
  join Translator.nl (importLines nodes).

End CodeGen.

(* ===================================================================== *)
(** ** The canvas application (App): editing, templates, auto-fix, checks *)
(* ===================================================================== *)

Module Workflow.

(** The state of [App] that the modelled handlers read and write: the React
    state, the two position refs, and the calls made to [addChatMessage].
    The [icon] of a node is presentation data that no handler reads;
    [N8nNodeData] does not carry it. *)
Record App : Type := mkApp {
  nodes : list Node;
  edges : list Edge;
  selectedNodes : list string;
  editingNode : option Node;
  showEditModal : bool;
  showTemplateModal : bool;
  allPositions : list XY;
  pendingPositions : list XY;
  chat : list Editor.ChatCall
}.

Definition setNodes (ns : list Node) (st : App) : App :=
  {| nodes := ns; edges := edges st; selectedNodes := selectedNodes st;
     editingNode := editingNode st; showEditModal := showEditModal st;
     showTemplateModal := showTemplateModal st;
     allPositions := allPositions st; pendingPositions := pendingPositions st;
     chat := chat st |}.

Definition setEdges (es : list Edge) (st : App) : App :=
  {| nodes := nodes st; edges := es; selectedNodes := selectedNodes st;
     editingNode := editingNode st; showEditModal := showEditModal st;
     showTemplateModal := showTemplateModal st;
     allPositions := allPositions st; pendingPositions := pendingPositions st;
     chat := chat st |}.

Definition setPositions (all pending : list XY) (st : App) : App :=
  {| nodes := nodes st; edges := edges st; selectedNodes := selectedNodes st;
     editingNode := editingNode st; showEditModal := showEditModal st;
     showTemplateModal := showTemplateModal st;
     allPositions := all; pendingPositions := pending;
     chat := chat st |}.

Definition addChatMessage (r c : string) (st : App) : App :=
  {| nodes := nodes st; edges := edges st; selectedNodes := selectedNodes st;
     editingNode := editingNode st; showEditModal := showEditModal st;
     showTemplateModal := showTemplateModal st;
     allPositions := allPositions st; pendingPositions := pendingPositions st;
     chat := chat st ++ [{| Editor.role := r; Editor.content := c |}] |}.


(** *** Editing a node *)

Definition applyEdit (editingId newLabel newDescription : string) (n : Node) : Node :=
  if String.eqb (id n) editingId then
    {| id := id n; position := position n;
       data := {| label := newLabel;
                  nodeType := nodeType (data n);
                  locked := locked (data n);
                  compliance_reason := compliance_reason (data n);
                  description := Some newDescription |} |}
  else n.

Definition saveEditedNode (newLabel newDescription : string) (st : App) : App :=
  match editingNode st with
  | None => st
  | Some editing =>
      let st := setNodes (List.map (applyEdit (id editing) newLabel newDescription)
                                   (nodes st)) st in
      addChatMessage "system" ("Updated node: " +:+ newLabel)
        {| nodes := nodes st; edges := edges st; selectedNodes := selectedNodes st;
           editingNode := None; showEditModal := false;
           showTemplateModal := showTemplateModal st;
           allPositions := allPositions st; pendingPositions := pendingPositions st;
           chat := chat st |}
  end.

(** *** Clearing the canvas and loading a template *)

Definition clearCanvas (st : App) : App :=
  addChatMessage "system" "Canvas cleared"
    (setPositions [] [] (setEdges [] (setNodes [] st))).

(** [WorkflowTemplate]. *)
Record WorkflowTemplate : Type := mkTemplate {
  t_id : string;
  t_name : string;
  t_description : string;
  t_category : string;
  t_icon : string;
  t_nodes : list Node;
  t_edges : list Edge
}.

(** [template.nodes.findIndex(n => n.id === i)]: -1 when there is none. *)
Fixpoint findIndexFrom (k : Z) (ns : list Node) (i : string) : Z :=
  match ns with
  | [] => (-1)%Z
  | n :: rest => if String.eqb (id n) i then k else findIndexFrom (k + 1)%Z rest i
  end.

Definition findIndex (ns : list Node) (i : string) : Z := findIndexFrom 0 ns i.

(** The suffix [_<timestamp>_<index>] of a loaded id. *)
Definition stamped (i : string) (timestamp index : Z) : string :=
  i +:+ "_" +:+ pretty timestamp +:+ "_" +:+ pretty index.

(** [template.nodes.map((node, index) => ...)]. *)
Fixpoint stampNodes (timestamp : Z) (index : Z) (ns : list Node) : list Node :=
  match ns with
  | [] => []
  | n :: rest =>
      {| id := stamped (id n) timestamp index; position := position n; data := data n |}
      :: stampNodes timestamp (index + 1)%Z rest
  end.

Fixpoint stampEdges (timestamp : Z) (templateNodes : list Node) (index : Z)
    (es : list Edge) : list Edge :=
  match es with
  | [] => []
  | e :: rest =>
      {| edge_id := stamped (edge_id e) timestamp index;
         source := stamped (source e) timestamp (findIndex templateNodes (source e));
         target := stamped (target e) timestamp (findIndex templateNodes (target e)) |}
      :: stampEdges timestamp templateNodes (index + 1)%Z rest
  end.

(** [loadTemplate]; [timestamp] is [Date.now()]. *)
Definition loadTemplate (timestamp : Z) (template : WorkflowTemplate) (st : App) : App :=
  let templateNodes := stampNodes timestamp 0 (t_nodes template) in
  let templateEdges := stampEdges timestamp (t_nodes template) 0 (t_edges template) in
  addChatMessage "system"
    ("Loaded " +:+ t_name template +:+ " template with "
     +:+ pretty (length templateNodes) +:+ " nodes")
    {| nodes := templateNodes; edges := templateEdges;
       selectedNodes := selectedNodes st;
       editingNode := editingNode st; showEditModal := showEditModal st;
       showTemplateModal := false;
       allPositions := List.map position templateNodes; pendingPositions := [];
       chat := chat st |}.

(** *** Adding nodes *)

Section Placement.

(** The inputs of [findFreePosition] that the browser supplies. *)
Variables cos_deg sin_deg : Z -> Q.


Definition isStartNode (n : Node) : bool :=
  String.eqb (nodeType (data n)) "trigger" || String.eqb (nodeType (data n)) "manual".

Definition isValidationNode (n : Node) : bool :=
  String.eqb (nodeType (data n)) "validation".

(** [autoFixWorkflow]; [now1] and [now2] are the two readings of
    [Date.now()], [r1] to [r4] the draws the two placements may make. *)
Definition autoFixWorkflow (now1 now2 : Z) (r1 r2 r3 r4 : Q) (st : App) : App :=
  let newNodes := nodes st in
  let newEdges := edges st in
  let changes : list string := [] in
  let hasStartNode := existsb isStartNode newNodes in
  let '(newNodes, changes) :=
    if Nat.ltb 0 (length newNodes) && negb hasStartNode then
      let found := Layout.findFreePosition cos_deg sin_deg r1 r2
                     (allPositions st) (pendingPositions st)
                     (Some 50%Q) (Some 100%Q) in
      let triggerNode :=
        {| id := "trigger_" +:+ pretty now1;
           position := found;
           data := {| label := "Start Trigger"; nodeType := "trigger"; locked := false;
                      compliance_reason := None;
                      description := Some "Workflow trigger - auto-added" |} |} in
      (triggerNode :: newNodes, changes ++ ["Added trigger node"])
    else (newNodes, changes) in
  let hasValidation := existsb isValidationNode newNodes in
  let '(newNodes, changes) :=
    if Nat.ltb 1 (length newNodes) && negb hasValidation then
      let found := Layout.findFreePosition cos_deg sin_deg r3 r4
                     (allPositions st) (pendingPositions st) None None in
      let validationNode :=
        {| id := "validation_" +:+ pretty now2;
           position := found;
           data := {| label := "Validation Check"; nodeType := "validation";
                      locked := true;
                      compliance_reason := Some "Added for workflow compliance";
                      description := Some "Data validation - auto-added" |} |} in
      (newNodes ++ [validationNode], changes ++ ["Added validation node"])
    else (newNodes, changes) in
  if Nat.ltb 0 (length changes) then
    addChatMessage "system" ("Auto-fix applied: " +:+ CodeGen.join ", " changes)
      (setEdges newEdges (setNodes newNodes st))
  else addChatMessage "system" "No auto-fixes needed" st.

End Placement.

(** [autoArrangeNodes]. *)
Definition autoArrangeNodes (st : App) : App :=
  if Nat.eqb (length (nodes st)) 0 then
    addChatMessage "system" "No nodes to arrange" st
  else
    let arrangedNodes := Layout.arrangeNodesIntelligently (nodes st) in
    addChatMessage "system"
      ("Arranged " +:+ pretty (length (nodes st)) +:+ " nodes to prevent overlaps")
      (setNodes arrangedNodes st).

(** *** Checking the workflow *)

(** [connectedNodeIds.has(i)]. *)
Definition isConnected (es : list Edge) (i : string) : bool :=
  existsb (fun e => String.eqb (source e) i || String.eqb (target e) i) es.

Definition isEndNode (n : Node) : bool :=
  String.eqb (nodeType (data n)) "notification" || String.eqb (nodeType (data n)) "database".

(** The [issues] that [validateWorkflow] collects. *)
Definition validationIssues (ns : list Node) (es : list Edge) : list string :=
  let disconnectedNodes :=
    List.filter (fun n => negb (isConnected es (id n)) && Nat.ltb 1 (length ns)) ns in
  let complianceNodes := List.filter (fun n => locked (data n)) ns in
  (if Nat.ltb 0 (length disconnectedNodes)
   then [pretty (length disconnectedNodes) +:+ " disconnected nodes found"] else [])
  ++ (if Nat.ltb 0 (length ns) && Nat.eqb (length complianceNodes) 0
      then ["No compliance nodes detected - consider adding validation or audit steps"]
      else [])
  ++ (if Nat.ltb 0 (length ns) then
        let startNodes := List.filter isStartNode ns in
        let endNodes := List.filter isEndNode ns in
        (if Nat.eqb (length startNodes) 0 then ["No trigger/start node found"] else [])
        ++ (if Nat.eqb (length endNodes) 0 then ["No end/output node found"] else [])
      else []).

Definition validateWorkflow (st : App) : App :=
  let issues := validationIssues (nodes st) (edges st) in
  if Nat.eqb (length issues) 0 then
    addChatMessage "system" "✅ Workflow validation passed - no issues found" st
  else
    addChatMessage "system" ("⚠️ Validation issues: " +:+ CodeGen.join ", " issues) st.

(** *** Vocabulary *)


End Workflow.

(* ===================================================================== *)
(** * Properties of the schema translator *)
(* ===================================================================== *)

Module TranslatorProps.
Import Translator.

(** *** Strings *)



(** *** Nodes *)

Section Nodes.
Variables today now : string.
Variable random_id : nat -> string.

Lemma length_convertNodes_from (k : nat) (nodes : list Node) :
  length (convertNodes_from random_id k nodes) = length nodes.
Proof.
  revert k. induction nodes as [|n rest IH]; intros k; simpl; [done|].
  destruct (convertNode random_id k n) as [out k']. simpl. by rewrite IH.
Qed.

(** Every emitted node is the conversion of the input node at the same
    index, for some count of random draws. *)
Lemma lookup_convertNodes_from (k i : nat) (nodes : list Node) (n : Node) :
  nodes !! i = Some n ->
  exists k', convertNodes_from random_id k nodes !! i
             = Some (fst (convertNode random_id k' n)).
Proof.
  revert k i. induction nodes as [|m rest IH]; intros k i; [done|].
  simpl. destruct (convertNode random_id k m) as [out k'] eqn:E.
  destruct i as [|i]; simpl.
  - intros [= ->]. exists k. by rewrite E.
  - intros H. apply (IH k' i H).
Qed.

End Nodes.

(** *** Connections *)

Section Connections.
Variable nodes : list Node.








End Connections.

(** *** Key sets *)









(** *** Node conservation *)



(** *** Nodes that share a label *)



(** *** Trigger types *)




(** *** Fallback templates and the shape of the result *)

Lemma convertNode_plain (random_id : nat -> string) (k : nat) (n : Node) :
  String.eqb (nodeType (data n)) "trigger" = false ->
  convertNode random_id k n
  = ({| n8n_id := id n; n8n_name := label (data n);
        n8n_type := getN8nNodeType n; typeVersion := 1;
        n8n_position := (px (position n), py (position n));
        parameters := getNodeParameters n;
        webhookId := None; credentials := None |}, k).
Proof. intros H. unfold convertNode. by rewrite H. Qed.

Lemma unknown_kind_type (n : Node) :
  typedKind (nodeType (data n)) = false -> getN8nNodeType n = function_node.
Proof.
  unfold typedKind, getN8nNodeType.
  intros H. repeat (apply orb_false_iff in H as [H ?]).
  by repeat match goal with Hk : String.eqb _ _ = false |- _ => rewrite Hk; clear Hk end.
Qed.

Lemma unknown_kind_parameters (n : Node) :
  parameterisedKind (nodeType (data n)) = false ->
  getNodeParameters n = genericParameters n.
Proof.
  unfold parameterisedKind, getNodeParameters.
  intros H. repeat (apply orb_false_iff in H as [H ?]).
  by repeat match goal with Hk : String.eqb _ _ = false |- _ => rewrite Hk; clear Hk end.
Qed.

Lemma plain_action (n : Node) :
  nodeType (data n) = "action" -> actionKeyword n = false ->
  getN8nNodeType n = action_code
  /\ exists code, getNodeParameters n = JObj [("functionCode", JStr code)].
Proof.
  unfold actionKeyword, getN8nNodeType, getNodeParameters, getActionParameters.
  intros -> H. simpl.
  repeat (apply orb_false_iff in H as [H ?]).
  repeat match goal with Hk : Str.includes _ _ = false |- _ => rewrite Hk; clear Hk end.
  simpl. split; [done | by eexists].
Qed.

(** The translator returns no warnings list: an input of an unknown kind
    is translated, and neither the returned object nor the document in it
    has a property for warnings. *)
Lemma no_warnings_returned :
  let n := {| id := "s1"; position := {| px := 50; py := 50 |};
              data := {| label := "Scan Upload"; nodeType := "security";
                         locked := false; compliance_reason := None;
                         description := None |} |} in
  let out := convertToN8n "2024-01-01" "2024-01-01T00:00:00.000Z" (fun _ => "abc") [n] [] in
  ~ returnsWarnings out
  /\ ~ returnsWarnings
       (workflowObject (convert "2024-01-01" (fun _ => "abc") [n] [])).
Proof.
  intros n out. split; intros (k & Hk & Hw); simpl in Hk;
    repeat (apply elem_of_cons in Hk as [->|Hk]; [vm_compute in Hw; discriminate|]);
    by apply elem_of_nil in Hk.
Qed.

(** C7 (amended). Translation is total and never rejects a node: the
    document has one entry per input node; a node of a kind the type table
    does not know is given the function type, one of a kind the parameter
    switch does not know the generic function template, and an action
    whose label names no known service the code type with a function-code
    block. The returned object has the properties workflow and
    instructions, and the document the properties name, nodes,
    connections, active, settings and staticData: no list of translation
    warnings is returned. *)
Theorem translation_falls_back
    (today now : string) (random_id : nat -> string)
    (nodes : list Node) (edges : list Edge) :
  let doc := convert today random_id nodes edges in
  length (wf_nodes doc) = length nodes
  /\ (forall i n, nodes !! i = Some n ->
        exists out, wf_nodes doc !! i = Some out
          /\ n8n_id out = id n /\ n8n_name out = label (data n)
          /\ (typedKind (nodeType (data n)) = false -> n8n_type out = function_node)
          /\ (parameterisedKind (nodeType (data n)) = false ->
              parameters out = genericParameters n)
          /\ (nodeType (data n) = "action" -> actionKeyword n = false ->
              n8n_type out = action_code
              /\ exists code, parameters out = JObj [("functionCode", JStr code)]))
  /\ Json.keys (workflowObject doc)
     = ["name"; "nodes"; "connections"; "active"; "settings"; "staticData"]
  /\ Json.keys (convertToN8n today now random_id nodes edges)
     = ["workflow"; "instructions"]
  /\ ~ returnsWarnings (workflowObject doc)
  /\ ~ returnsWarnings (convertToN8n today now random_id nodes edges).
Proof.
  intros doc. subst doc. unfold convert. simpl.
  split; [apply length_convertNodes_from|].
  split.
  - intros i n Hi.
    destruct (lookup_convertNodes_from random_id 0 i nodes n Hi) as [k' Hk'].
    exists (fst (convertNode random_id k' n)). split; [exact Hk'|].
    split; [unfold convertNode; by case_match|].
    split; [unfold convertNode; by case_match|].
    split; [|split].
    + intros Hty. pose proof (unknown_kind_type n Hty) as Ht.
      unfold typedKind in Hty. repeat (apply orb_false_iff in Hty as [Hty ?]).
      by rewrite convertNode_plain.
    + intros Hty. pose proof (unknown_kind_parameters n Hty) as Ht.
      unfold parameterisedKind in Hty. repeat (apply orb_false_iff in Hty as [Hty ?]).
      by rewrite convertNode_plain.
    + intros Hkind Hkw. rewrite convertNode_plain; [|by rewrite Hkind].
      simpl. by apply plain_action.
  - repeat split.
    + intros (k & Hk & Hw). simpl in Hk.
      repeat (apply elem_of_cons in Hk as [->|Hk]; [vm_compute in Hw; discriminate|]).
      by apply elem_of_nil in Hk.
    + intros (k & Hk & Hw). simpl in Hk.
      repeat (apply elem_of_cons in Hk as [->|Hk]; [vm_compute in Hw; discriminate|]).
      by apply elem_of_nil in Hk.
Qed.

(** *** Deployment requirements and test endpoints *)

Lemma existsb_eqb_elem (c : string) (seen : list string) :
  existsb (String.eqb c) seen = true <-> c ∈ seen.
Proof.
  rewrite existsb_exists. split.
  - intros (x & Hin & Heq). apply String.eqb_eq in Heq as ->.
    by apply list_elem_of_In.
  - intros Hin. exists c. split; [by apply list_elem_of_In | apply String.eqb_refl].
Qed.

Lemma elem_of_dedup_first (seen l : list string) (c : string) :
  c ∈ dedup_first seen l <-> c ∈ l /\ c ∉ seen.
Proof.
  revert seen. induction l as [|x l IH]; intros seen; simpl.
  - split; [by intros ?%elem_of_nil | by intros [?%elem_of_nil _]].
  - destruct (existsb (String.eqb x) seen) eqn:E.
    + apply existsb_eqb_elem in E. rewrite IH, elem_of_cons.
      split; [tauto|]. intros [[->|H] Hn]; [done | tauto].
    + assert (Hx : x ∉ seen).
      { intros Hin. apply existsb_eqb_elem in Hin. congruence. }
      rewrite !elem_of_cons, IH, elem_of_cons.
      destruct (decide (c = x)) as [->|Hne]; [tauto|]. tauto.
Qed.

Lemma NoDup_dedup_first (seen l : list string) : NoDup (dedup_first seen l).
Proof.
  revert seen. induction l as [|x l IH]; intros seen; simpl; [constructor|].
  destruct (existsb (String.eqb x) seen); [apply IH|].
  constructor; [|apply IH].
  rewrite elem_of_dedup_first. intros [_ Hn]. apply Hn. by left.
Qed.

Lemma elem_of_getRequiredCredentials (nodes : list Node) (c : string) :
  c ∈ getRequiredCredentials nodes <-> exists n, n ∈ nodes /\ c ∈ nodeCredentials n.
Proof.
  unfold getRequiredCredentials. rewrite elem_of_dedup_first.
  rewrite list_elem_of_In, in_flat_map. split.
  - intros [(n & Hn & Hc) _]. exists n. by rewrite !list_elem_of_In.
  - intros (n & Hn & Hc). split; [|by intros ?%elem_of_nil].
    exists n. by rewrite <- !list_elem_of_In.
Qed.

Lemma email_credentials_of_node (n : Node) :
  "SMTP/Email Credentials" ∈ nodeCredentials n
  <-> Str.includes (lowerLabel n) "email" = true.
Proof.
  unfold nodeCredentials.
  destruct (Str.includes (lowerLabel n) "llm" || Str.includes (lowerLabel n) "ai"
            || Str.includes (lowerLabel n) "gpt");
    destruct (Str.includes (lowerLabel n) "email");
    destruct (Str.includes (lowerLabel n) "database"); simpl;
    rewrite ?elem_of_cons, ?elem_of_nil; split; intros H; try done;
    try tauto; repeat destruct H as [H|H]; try done.
Qed.

(** A trigger that is not a webhook gets no example endpoint. *)
Lemma manual_trigger_has_no_endpoint :
  let n := {| id := "t1"; position := {| px := 50; py := 50 |};
              data := {| label := "Start"; nodeType := "trigger";
                         locked := false; compliance_reason := None;
                         description := None |} |} in
  nodeType (data n) = "trigger"
  /\ generateTestEndpoints "2024-01-01T00:00:00.000Z" [n] = [].
Proof. intros n. split; reflexivity. Qed.

(** C8 (amended). The requirement list is taken from one pass over the
    labels and holds no requirement twice; a requirement is listed exactly
    when some node's label calls for it, so the e-mail credentials are
    listed exactly when some lower-cased label contains the word email.
Example endpoints are made for the webhook triggers only, one each and
in node order, with the URL ending in nodex-<id>; triggers of the
other sub-kinds get none. *)
Theorem requirements_and_endpoints (now : string) (nodes : list Node) :
  NoDup (getRequiredCredentials nodes)
  /\ (forall c, c ∈ getRequiredCredentials nodes
                <-> exists n, n ∈ nodes /\ c ∈ nodeCredentials n)
  /\ ("SMTP/Email Credentials" ∈ getRequiredCredentials nodes
      <-> exists n, n ∈ nodes /\ Str.includes (lowerLabel n) "email" = true)
  /\ length (generateTestEndpoints now nodes)
     = length (List.filter isWebhookTrigger nodes)
  /\ (forall n, n ∈ nodes -> isWebhookTrigger n = true ->
        exists ep, ep ∈ generateTestEndpoints now nodes
          /\ ep_method ep = "POST"
          /\ ep_url ep = "http://localhost:5678/webhook/nodex-" +:+ id n)
  /\ (forall ep, ep ∈ generateTestEndpoints now nodes ->
        exists n, n ∈ nodes /\ isWebhookTrigger n = true
          /\ ep_url ep = "http://localhost:5678/webhook/nodex-" +:+ id n).
Proof.
  split; [apply NoDup_dedup_first|].
  split; [apply elem_of_getRequiredCredentials|].
  split; [|split; [|split]].
  - rewrite elem_of_getRequiredCredentials.
    split; intros (n & Hn & Hc); exists n; (split; [done|]);
      by apply email_credentials_of_node.
  - unfold generateTestEndpoints. apply length_map.
  - intros n Hn Hw. unfold generateTestEndpoints.
    exists {| ep_method := "POST";
              ep_url := "http://localhost:5678/webhook/nodex-" +:+ id n;
              ep_body := JObj [("test", JStr "data"); ("timestamp", JStr now)];
              ep_description := "Test endpoint for " +:+ label (data n) |}.
    split; [|split; reflexivity].
    apply list_elem_of_In, in_map_iff. exists n. split; [done|].
    apply filter_In. split; [by apply list_elem_of_In | done].
  - intros ep Hep. unfold generateTestEndpoints in Hep.
    apply list_elem_of_In, in_map_iff in Hep as (n & <- & Hn).
    apply filter_In in Hn as [Hn Hw].
    exists n. split; [by apply list_elem_of_In | done].
Qed.

End TranslatorProps.

(* ===================================================================== *)
(** * Properties of the edit layer *)
(* ===================================================================== *)

Module EditorProps.
Import Editor.

Lemma includes_elem (arr : list string) (s : string) :
  includes arr s = true <-> s ∈ arr.
Proof.
  unfold includes. rewrite existsb_exists. split.
  - intros (x & Hin & Heq). apply String.eqb_eq in Heq as ->.
    by apply list_elem_of_In.
  - intros Hin. exists s. split; [by apply list_elem_of_In | apply String.eqb_refl].
Qed.

Lemma filter_id {A : Type} (p : A -> bool) (l : list A) :
  (forall x, In x l -> p x = true) -> List.filter p l = l.
Proof.
  induction l as [|x l IH]; intros H; simpl; [done|].
  rewrite (H x (or_introl eq_refl)). f_equal. apply IH.
  intros y Hy. apply H. by right.
Qed.


(** *** Rejected deletions *)




(** *** Accepted deletions *)

(** C10. When no selected node is locked, the deletion drops the selected
    nodes and with them exactly the edges that have a selected node as
    source or target. If every edge referred to existing nodes before,
    every remaining edge still does afterwards. *)
Theorem deletion_leaves_no_dangling_edge (st : Canvas) :
  lockedSelection st = [] ->
  edgesResolve (nodes st) (edges st) ->
  let st' := deleteSelectedNodes st in
  (forall n, n ∈ nodes st' <-> n ∈ nodes st /\ id n ∉ selectedNodes st)
  /\ (forall e, e ∈ edges st' <->
         e ∈ edges st /\ (source e ∉ selectedNodes st) /\ (target e ∉ selectedNodes st))
  /\ edgesResolve (nodes st') (edges st').
Proof.
  intros Hlocked Hres st'.
  assert (Hn : nodes st'
               = List.filter (fun n => negb (includes (selectedNodes st) (id n))) (nodes st)).
  { subst st'. unfold deleteSelectedNodes. rewrite Hlocked.
    destruct (selectedNodes st) eqn:Es; simpl; [|done].
    symmetry. by apply filter_id. }
  assert (He : edges st'
               = List.filter (fun e => negb (includes (selectedNodes st) (source e))
                                       && negb (includes (selectedNodes st) (target e)))
                             (edges st)).
  { subst st'. unfold deleteSelectedNodes. rewrite Hlocked.
    destruct (selectedNodes st) eqn:Es; simpl; [|done].
    symmetry. by apply filter_id. }
  assert (Hnodes : forall n, n ∈ nodes st' <-> n ∈ nodes st /\ id n ∉ selectedNodes st).
  { intros n. rewrite Hn, list_elem_of_In, filter_In, <- list_elem_of_In.
    rewrite negb_true_iff, <- not_true_iff_false, includes_elem. done. }
  assert (Hedges : forall e, e ∈ edges st' <->
         e ∈ edges st /\ (source e ∉ selectedNodes st) /\ (target e ∉ selectedNodes st)).
  { intros e. rewrite He, list_elem_of_In, filter_In, <- list_elem_of_In.
    rewrite andb_true_iff, !negb_true_iff, <- !not_true_iff_false, !includes_elem. done. }
  split; [exact Hnodes|]. split; [exact Hedges|].
  intros e [Hin [Hs Ht]]%Hedges.
  destruct (Hres e Hin) as [(s & Hsin & Hsid) (t & Htin & Htid)].
  split; [exists s | exists t]; (split; [|done]); apply Hnodes; split; try done;
    congruence.
Qed.

Lemma deletion_leaves_no_dangling_edge_witness :
  let mk i := {| id := i; position := {| px := 50; py := 50 |};
                 data := {| label := i; nodeType := "action"; locked := false;
                            compliance_reason := None; description := None |} |} in
  let st := {| nodes := [mk "a"; mk "b"; mk "c"];
               edges := [ {| edge_id := "e1"; source := "a"; target := "b" |};
                          {| edge_id := "e2"; source := "b"; target := "c" |} ];
               selectedNodes := ["a"]; chat := [] |} in
  (lockedSelection st = [] /\ edgesResolve (nodes st) (edges st))
  /\ edges (deleteSelectedNodes st) = [ {| edge_id := "e2"; source := "b"; target := "c" |} ]
  /\ edgesResolve (nodes (deleteSelectedNodes st)) (edges (deleteSelectedNodes st)).
Proof.
  intros mk st.
  assert (Hres : edgesResolve (nodes st) (edges st)).
  { intros e He. apply list_elem_of_In in He. simpl in He.
    destruct He as [<-|[<-|[]]]; split; simpl.
    - exists (mk "a"). split; [apply list_elem_of_In; simpl; tauto | reflexivity].
    - exists (mk "b"). split; [apply list_elem_of_In; simpl; tauto | reflexivity].
    - exists (mk "b"). split; [apply list_elem_of_In; simpl; tauto | reflexivity].
    - exists (mk "c"). split; [apply list_elem_of_In; simpl; tauto | reflexivity]. }
  split; [split; [reflexivity | exact Hres]|].
  split; [reflexivity|].
  apply (deletion_leaves_no_dangling_edge st eq_refl Hres).
Defined.

End EditorProps.

(* ===================================================================== *)
(** * Properties of the layout solver *)
(* ===================================================================== *)

Module LayoutProps.
Import Layout.

(** *** Shared node objects *)

Lemma placeEach_length (index : nat) (group : list nat) (pos : Z -> Z * Z)
    (store : list Node) :
  length (placeEach index group pos store) = length store.
Proof.
  revert index store. induction group as [|r rest IH]; intros index store; simpl; [done|].
  by rewrite IH, length_alter.
Qed.

Lemma placeEach_notin (index : nat) (group : list nat) (pos : Z -> Z * Z)
    (store : list Node) (r : nat) :
  r ∉ group -> placeEach index group pos store !! r = store !! r.
Proof.
  revert index store. induction group as [|r0 rest IH]; intros index store Hr; simpl; [done|].
  apply not_elem_of_cons in Hr as [Hne Hr].
  rewrite IH by done. by apply list_lookup_alter_ne.
Qed.

Lemma placeEach_in (index : nat) (group : list nat) (pos : Z -> Z * Z)
    (store : list Node) (k r : nat) :
  NoDup group -> group !! k = Some r ->
  placeEach index group pos store !! r
  = setPosition (fst (pos (Z.of_nat (index + k)))) (snd (pos (Z.of_nat (index + k))))
      <$> store !! r.
Proof.
  revert index store k. induction group as [|r0 rest IH]; intros index store k Hnd Hk;
    [done|].
  apply NoDup_cons in Hnd as [Hr0 Hnd]. simpl. destruct k as [|k]; simpl in Hk.
  - injection Hk as ->. rewrite placeEach_notin by done.
    rewrite Nat.add_0_r. apply list_lookup_alter_eq.
  - rewrite (IH (S index) _ k Hnd Hk).
    replace (S index + k)%nat with (index + S k)%nat by lia.
    rewrite list_lookup_alter_ne; [done|].
    intros ->. apply Hr0. by eapply list_elem_of_lookup_2.
Qed.

Lemma setPosition_data (x y : Z) (n : Node) : data (setPosition x y n) = data n.
Proof. done. Qed.

Lemma placeEach_data (index : nat) (group : list nat) (pos : Z -> Z * Z)
    (store : list Node) (r : nat) :
  data <$> placeEach index group pos store !! r = data <$> store !! r.
Proof.
  revert index store. induction group as [|r0 rest IH]; intros index store; simpl; [done|].
  rewrite IH. destruct (decide (r0 = r)) as [->|Hne].
  - rewrite list_lookup_alter_eq. by destruct (store !! r).
  - by rewrite list_lookup_alter_ne.
Qed.

Lemma elem_of_refsFrom (s : nat) (p : Node -> bool) (l : list Node) (i : nat) :
  i ∈ refsFrom s p l <-> exists n, s <= i /\ l !! (i - s)%nat = Some n /\ p n = true.
Proof.
  revert s. induction l as [|m rest IH]; intros s; simpl.
  - split; [by intros ?%elem_of_nil | by intros (n & _ & ? & _)].
  - assert (Hrest : i ∈ refsFrom (S s) p rest <->
                    exists n, s < i /\ (m :: rest) !! (i - s)%nat = Some n /\ p n = true).
    { rewrite IH. split; intros (n & Hle & Hn & Hp); exists n; (split; [lia|]); split; try done.
      - replace (i - s)%nat with (S (i - S s)) by lia. done.
      - replace (i - s)%nat with (S (i - S s)) in Hn by lia. done. }
    destruct (p m) eqn:Epm.
    + rewrite elem_of_cons, Hrest. split.
      * intros [->|(n & Hle & Hn & Hp)].
        -- exists m. rewrite Nat.sub_diag. done.
        -- exists n. split; [lia | done].
      * intros (n & Hle & Hn & Hp). destruct (decide (i = s)) as [->|Hne]; [by left|].
        right. exists n. split; [lia | done].
    + rewrite Hrest. split.
      * intros (n & Hle & Hn & Hp). exists n. split; [lia | done].
      * intros (n & Hle & Hn & Hp). exists n. split; [|done].
        destruct (decide (i = s)) as [->|Hne]; [|lia].
        rewrite Nat.sub_diag in Hn. simpl in Hn. congruence.
Qed.

Lemma NoDup_refsFrom (s : nat) (p : Node -> bool) (l : list Node) :
  NoDup (refsFrom s p l).
Proof.
  revert s. induction l as [|m rest IH]; intros s; simpl; [constructor|].
  destruct (p m); [|apply IH].
  constructor; [|apply IH].
  rewrite elem_of_refsFrom. intros (n & Hle & _). lia.
Qed.

Lemma elem_of_refs (p : Node -> bool) (l : list Node) (i : nat) :
  i ∈ refs p l <-> exists n, l !! i = Some n /\ p n = true.
Proof.
  unfold refs. rewrite elem_of_refsFrom. rewrite Nat.sub_0_r.
  split; [intros (n & _ & H); by exists n | intros (n & H); exists n; split; [lia | done]].
Qed.

(** *** The slot of a node in a group *)

Lemma slotFrom_None (k : nat) (group : list nat) (r : nat) :
  slotFrom k group r = None <-> r ∉ group.
Proof.
  revert k. induction group as [|r0 rest IH]; intros k; simpl.
  - split; [intros _; apply not_elem_of_nil | done].
  - rewrite not_elem_of_cons. destruct (Nat.eqb_spec r0 r) as [->|Hne].
    + split; [done | by intros [? _]].
    + rewrite IH. split; [by split | by intros [_ ?]].
Qed.

Lemma slotFrom_Some (k : nat) (group : list nat) (r s : nat) :
  slotFrom k group r = Some s -> k <= s /\ group !! (s - k)%nat = Some r.
Proof.
  revert k. induction group as [|r0 rest IH]; intros k; simpl; [done|].
  destruct (Nat.eqb_spec r0 r) as [->|Hne].
  - intros [= ->]. by rewrite Nat.sub_diag.
  - intros [Hle Hs]%IH. split; [lia|].
    replace (s - k)%nat with (S (s - S k)) by lia. done.
Qed.



Lemma placeEach_slot (index : nat) (group : list nat) (pos : Z -> Z * Z)
    (store : list Node) (r : nat) :
  NoDup group ->
  placeEach index group pos store !! r
  = match slotFrom index group r with
    | Some k => setPosition (fst (pos (Z.of_nat k))) (snd (pos (Z.of_nat k))) <$> store !! r
    | None => store !! r
    end.
Proof.
  intros Hnd. destruct (slotFrom index group r) as [k|] eqn:E.
  - apply slotFrom_Some in E as [Hle Hk].
    rewrite (placeEach_in index group pos store (k - index) r Hnd Hk).
    by replace (index + (k - index))%nat with k by lia.
  - apply placeEach_notin. by apply (slotFrom_None index).
Qed.

(** *** Geometry of the bands *)










(** *** Full rearrangement keeps the spacing, but for the top row against
    the compliance column *)



(** *** Incremental placement *)








Section Search.
Variables cos_deg sin_deg : Z -> Q.
Variables rand1 rand2 : Q.
Variables allPositions pendingPositions : list XY.




End Search.


(** *** The spacing of placed nodes *)



(** *** The last resort of incremental placement *)











End LayoutProps.

(* ===================================================================== *)
(** * Properties of the invariant enforcer *)
(* ===================================================================== *)

Module EnforcerProps.
Import Enforcer.

Lemma find_is_Some_app {A : Type} (P : A -> bool) (l extra : list A) :
  is_Some (List.find P l) -> is_Some (List.find P (l ++ extra)).
Proof.
  induction l as [|x l IH]; simpl; [by intros [? ?]|].
  destruct (P x); [done | apply IH].
Qed.

Lemma find_is_Some_last {A : Type} (P : A -> bool) (l : list A) (x : A) :
  P x = true -> is_Some (List.find P (l ++ [x])).
Proof.
  intros Hx. induction l as [|y l IH]; simpl.
  - rewrite Hx. by eexists.
  - destruct (P y); [by eexists | done].
Qed.

(** The synthesized node carries the compliance type of its step and is
    locked: the search of step 1 accepts it under either reading. *)
Lemma satisfiesStep_synthesize (ids : IdSupply) (lockedOnly : bool) (g : Graph)
    (s : RequiredStep) :
  satisfiesStep lockedOnly s (synthesize ids g s) = true.
Proof.
  unfold satisfiesStep, matchesStep, synthesize. simpl.
  rewrite String.eqb_refl. by destruct lockedOnly.
Qed.

Section Steps.
Variable ids : IdSupply.
Variable lockedOnly : bool.

(** A step whose match is found leaves graph and warnings as they are. *)
Lemma enforceStep_found (s : RequiredStep) (g : Graph) (warnings : list string) :
  is_Some (findMatch lockedOnly s g) -> enforceStep ids lockedOnly s g warnings = Enforced g warnings.
Proof. intros [n Hn]. unfold enforceStep. by rewrite Hn. Qed.

(** A step only appends nodes. *)
Lemma enforceStep_nodes (s : RequiredStep) (g g' : Graph) (w w' : list string) :
  enforceStep ids lockedOnly s g w = Enforced g' w' ->
  exists extra, gnodes g' = gnodes g ++ extra.
Proof.
  unfold enforceStep. destruct (findMatch lockedOnly s g) as [n|].
  - intros [= <- _]. exists []. by rewrite app_nil_r.
  - destruct (resolveAnchor g s) as [place ws].
    destruct (validate _); [|done]. intros [= <- _]. by eexists.
Qed.

(** After its round a step finds its match. *)
Lemma enforceStep_matched (s : RequiredStep) (g g' : Graph) (w w' : list string) :
  enforceStep ids lockedOnly s g w = Enforced g' w' -> is_Some (findMatch lockedOnly s g').
Proof.
  unfold enforceStep. destruct (findMatch lockedOnly s g) as [n|] eqn:E.
  - intros [= <- _]. by eexists.
  - destruct (resolveAnchor g s) as [place ws].
    destruct (validate _); [|done]. intros [= <- _].
    unfold findMatch. simpl. apply find_is_Some_last, satisfiesStep_synthesize.
Qed.

Lemma enforceSteps_nodes (steps : list RequiredStep) (g g' : Graph) (w w' : list string) :
  enforceSteps ids lockedOnly steps g w = Enforced g' w' ->
  exists extra, gnodes g' = gnodes g ++ extra.
Proof.
  revert g w. induction steps as [|s rest IH]; intros g w; simpl.
  - intros [= <- _]. exists []. by rewrite app_nil_r.
  - destruct (enforceStep ids lockedOnly s g w) as [errors|g1 w1] eqn:E; [done|].
    intros Hrest. apply enforceStep_nodes in E as [extra1 H1].
    apply IH in Hrest as [extra2 H2].
    exists (extra1 ++ extra2). by rewrite H2, H1, app_assoc.
Qed.

(** After the loop every step of the rule set finds its match. *)
Lemma enforceSteps_all_matched (steps : list RequiredStep) (g g' : Graph)
    (w w' : list string) :
  enforceSteps ids lockedOnly steps g w = Enforced g' w' ->
  forall s, s ∈ steps -> is_Some (findMatch lockedOnly s g').
Proof.
  revert g w. induction steps as [|s0 rest IH]; intros g w; simpl.
  - intros _ s Hs. by apply elem_of_nil in Hs.
  - destruct (enforceStep ids lockedOnly s0 g w) as [errors|g1 w1] eqn:E; [done|].
    intros Hrest s [->|Hs]%elem_of_cons.
    + apply enforceStep_matched in E.
      apply enforceSteps_nodes in Hrest as [extra Hextra].
      unfold findMatch in *. rewrite Hextra. by apply find_is_Some_app.
    + by apply (IH g1 w1).
Qed.

(** When every step finds its match, the loop changes nothing. *)
Lemma enforceSteps_fixed (steps : list RequiredStep) (g : Graph) (w : list string) :
  (forall s, s ∈ steps -> is_Some (findMatch lockedOnly s g)) ->
  enforceSteps ids lockedOnly steps g w = Enforced g w.
Proof.
  induction steps as [|s rest IH]; intros Hall; simpl; [done|].
  rewrite enforceStep_found by (apply Hall; by left).
  apply IH. intros s' Hs'. apply Hall. by right.
Qed.

End Steps.

Lemma isomorphic_refl (g : Graph) : isomorphic g g.
Proof.
  exists (fun i => i). split; [done|]. split.
  - rewrite <- (map_id (gnodes g)) at 2. apply map_ext. by intros [].
  - rewrite <- (map_id (gedges g)) at 2. apply map_ext. by intros [].
Qed.

(** C4. The enforcer is idempotent. Whatever ids the two runs give to the
    nodes and edges they synthesize, and under either reading of a match
    that is not locked, enforcing the result of an enforcement again yields
    the same graph, hence one that is the same up to a renaming of ids; a
    graph the first run rejects stays rejected. The second run finds the
    node of every step in step 1 and inserts nothing. *)
Theorem enforce_idempotent (ids1 ids2 : IdSupply) (lockedOnly : bool) (g : Graph)
    (ruleSet : list RequiredStep) :
  graphOf (enforceAgain ids2 lockedOnly ruleSet (enforce ids1 lockedOnly g ruleSet))
  = graphOf (enforce ids1 lockedOnly g ruleSet)
  /\ sameOutcome (enforceAgain ids2 lockedOnly ruleSet (enforce ids1 lockedOnly g ruleSet))
                 (enforce ids1 lockedOnly g ruleSet).
Proof.
  assert (Heq : graphOf (enforceAgain ids2 lockedOnly ruleSet
                           (enforce ids1 lockedOnly g ruleSet))
                = graphOf (enforce ids1 lockedOnly g ruleSet)).
  { unfold enforce.
    destruct (enforceSteps ids1 lockedOnly ruleSet g []) as [errors|g1 w1] eqn:E;
      [done|].
    simpl. unfold enforce.
    rewrite enforceSteps_fixed; [done|].
    by apply (enforceSteps_all_matched ids1 lockedOnly ruleSet g g1 [] w1). }
  split; [exact Heq|].
  unfold sameOutcome. rewrite Heq.
  destruct (graphOf (enforce ids1 lockedOnly g ruleSet)); [apply isomorphic_refl | done].
Qed.

(** The finance example of the specification: a fraud check before and an
    audit after the payment step give four nodes in a chain, and a second
    enforcement adds nothing. *)
Lemma enforce_finance_example :
  let ids := {| nodeIdFor := fun _ s => "c_" +:+ stepComplianceType s;
                edgeIdFor := fun _ s k => "e_" +:+ stepComplianceType s +:+ pretty k |} in
  let node i k l :=
    {| nid := i; kind := k; nlabel := l; ndescription := ""; nposition := (0, 0)%Q;
       nlocked := false; complianceReason := None; domainTag := Some "finance";
       complianceType := None |} in
  let g := {| gnodes := [node "n1" trigger "Invoice Received";
                         node "n2" action "Process Payment"];
              gedges := [{| eid := "e1"; sourceNodeId := "n1"; targetNodeId := "n2" |}] |} in
  let rules :=
    [ {| stepLabel := "Fraud Risk Assessment"; stepComplianceType := "fraud_check";
         anchor := {| mode := beforeLabelMatch; matchKeyword := Some "Payment" |};
         reason := "Fraud screening is mandatory" |};
      {| stepLabel := "Transaction Audit"; stepComplianceType := "audit_log";
         anchor := {| mode := afterLabelMatch; matchKeyword := Some "Payment" |};
         reason := "Transactions are audited" |} ] in
  exists g1 w,
    enforce ids true g rules = Enforced g1 w
    /\ List.map nlabel (gnodes g1)
       = ["Invoice Received"; "Process Payment"; "Fraud Risk Assessment"; "Transaction Audit"]
    /\ List.map (fun e => (sourceNodeId e, targetNodeId e)) (gedges g1)
       = [("n1", "c_fraud_check"); ("c_fraud_check", "n2"); ("n2", "c_audit_log")]
    /\ forallb nlocked (List.skipn 2 (gnodes g1)) = true
    /\ enforce ids true g1 rules = Enforced g1 [].
Proof.
  intros ids node g rules. eexists. eexists.
  split; [vm_compute; reflexivity|].
  repeat split.
Qed.

End EnforcerProps.

(* ===================================================================== *)
(** * Further properties of the translator and its clients *)
(* ===================================================================== *)

Module TranslatorExtra.
Import Translator TranslatorSpec.

(** *** Actions *)

(** X1. For an action the external type and the parameter block are chosen by
    the same keyword test: each of the five action types comes with the
    parameter block of its own service. *)
Theorem action_type_matches_parameters (n : Node) :
  nodeType (data n) = "action" ->
  (getN8nNodeType n = action_llm_call
   /\ Json.keys (getNodeParameters n)
      = ["resource"; "operation"; "model"; "messages"; "options"])
  \/ (getN8nNodeType n = action_email
      /\ Json.keys (getNodeParameters n)
         = ["fromEmail"; "toEmail"; "subject"; "message"; "format"])
  \/ (getN8nNodeType n = action_database
      /\ Json.keys (getNodeParameters n)
         = ["operation"; "schema"; "table"; "columns"; "values"])
  \/ (getN8nNodeType n = action_http_request
      /\ Json.keys (getNodeParameters n)
         = ["method"; "url"; "sendBody"; "bodyContentType"; "jsonBody"; "options"])
  \/ (getN8nNodeType n = action_code
      /\ Json.keys (getNodeParameters n) = ["functionCode"]).
Proof.
  intros Hkind. unfold getN8nNodeType, getNodeParameters, getActionParameters.
  rewrite Hkind. simpl.
  destruct (Str.includes (lowerLabel n) "llm" || Str.includes (lowerLabel n) "ai"
            || Str.includes (lowerLabel n) "gpt"); [by left|].
  destruct (Str.includes (lowerLabel n) "email"); [by right; left|].
  destruct (Str.includes (lowerLabel n) "database" || Str.includes (lowerLabel n) "db");
    [by right; right; left|].
  destruct (Str.includes (lowerLabel n) "http" || Str.includes (lowerLabel n) "api");
    [by right; right; right; left|].
  by right; right; right; right.
Qed.

Lemma action_type_matches_parameters_witness :
  let n := {| id := "a1"; position := {| px := 50; py := 50 |};
              data := {| label := "Send Email via API"; nodeType := "action";
                         locked := false; compliance_reason := None;
                         description := None |} |} in
  nodeType (data n) = "action"
  /\ getN8nNodeType n = action_llm_call
  /\ Json.keys (getNodeParameters n)
     = ["resource"; "operation"; "model"; "messages"; "options"].
Proof.
  intros n. split; [reflexivity|].
  destruct (action_type_matches_parameters n eq_refl)
    as [H|[[H _]|[[H _]|[[H _]|[H _]]]]]; [exact H | | | |];
    vm_compute in H; discriminate H.
Defined.

(** *** Substrings *)

Lemma string_app_cons (c : ascii) (a b : string) :
  String c a +:+ b = String c (a +:+ b).
Proof. reflexivity. Qed.

Lemma string_app_nil_l (b : string) : "" +:+ b = b.
Proof. reflexivity. Qed.

Lemma string_app_assoc (a b c : string) : (a +:+ b) +:+ c = a +:+ (b +:+ c).
Proof.
  induction a as [|x a IH]; [done|].
  by rewrite !string_app_cons, IH.
Qed.

Lemma prefix_split (p s : string) :
  String.prefix p s = true -> exists t, s = p +:+ t.
Proof.
  revert s. induction p as [|c p IH]; intros s.
  - intros _. by exists s.
  - destruct s as [|d s]; cbn [String.prefix]; [done|].
    destruct (Ascii.ascii_dec c d) as [->|]; [|done].
    intros [t ->]%IH. by exists t.
Qed.

Lemma prefix_app (p t : string) : String.prefix p (p +:+ t) = true.
Proof.
  induction p as [|c p IH].
  - rewrite string_app_nil_l. by destruct t.
  - rewrite string_app_cons. cbn [String.prefix].
    destruct (Ascii.ascii_dec c c); [done | congruence].
Qed.

(** [s.includes(sub)] holds exactly when [s] splits around [sub]. *)
Lemma includes_split (s sub : string) :
  Str.includes s sub = true <-> exists a b, s = a +:+ sub +:+ b.
Proof.
  split.
  - induction s as [|c s IH]; cbn [Str.includes].
    + rewrite orb_false_r. intros [t Ht]%prefix_split. by exists "", t.
    + intros [[t Ht]%prefix_split|Hr]%orb_true_iff.
      * by exists "", t.
      * destruct (IH Hr) as (a & b & ->). by exists (String c a), b.
  - intros (a & b & ->). induction a as [|c a IH].
    + rewrite string_app_nil_l.
      destruct (sub +:+ b) eqn:E; cbn [Str.includes]; rewrite <- E, prefix_app; done.
    + rewrite string_app_cons. cbn [Str.includes]. rewrite IH. apply orb_true_r.
Qed.

(** A text that contains the word email contains the letters ai. *)
Lemma includes_email_ai (s : string) :
  Str.includes s "email" = true -> Str.includes s "ai" = true.
Proof.
  intros (a & b & ->)%includes_split. apply includes_split.
  exists (a +:+ "em"), ("l" +:+ b). by rewrite !string_app_assoc.
Qed.

(** X2. No node is ever translated to the e-mail node: the test for the letters
    ai comes first and every label with the word email passes it. An action
    labelled as an e-mail step gets the OpenAI type and its chat parameters,
    and a graph that needs the e-mail credentials is also said to need the
    OpenAI key. *)
Theorem email_service_is_unreachable (n : Node) (nodes : list Node) :
  getN8nNodeType n <> action_email
  /\ (nodeType (data n) = "action" ->
      Str.includes (lowerLabel n) "email" = true ->
      getN8nNodeType n = action_llm_call
      /\ Json.keys (getNodeParameters n)
         = ["resource"; "operation"; "model"; "messages"; "options"])
  /\ ("SMTP/Email Credentials" ∈ getRequiredCredentials nodes ->
      "OpenAI API Key" ∈ getRequiredCredentials nodes).
Proof.
  split; [|split].
  - unfold getN8nNodeType.
    destruct (String.eqb (nodeType (data n)) "trigger");
      [by repeat case_match|].
    destruct (String.eqb (nodeType (data n)) "action"); [|by repeat case_match].
    destruct (Str.includes (lowerLabel n) "email") eqn:E.
    + rewrite (includes_email_ai _ E), orb_true_r. done.
    + by repeat case_match.
  - intros Hkind E. unfold getN8nNodeType, getNodeParameters, getActionParameters.
    rewrite Hkind. simpl. rewrite (includes_email_ai _ E), orb_true_r. done.
  - rewrite !TranslatorProps.elem_of_getRequiredCredentials.
    intros (m & Hm & Hc). exists m. split; [done|].
    apply TranslatorProps.email_credentials_of_node in Hc.
    unfold nodeCredentials. rewrite (includes_email_ai _ Hc), orb_true_r. simpl.
    by left.
Qed.

(** *** The emitted node list *)

Section Emitted.
Variable random_id : nat -> string.

Lemma convertNode_fields (k : nat) (n : Node) :
  let out := fst (convertNode random_id k n) in
  n8n_id out = id n /\ n8n_name out = label (data n)
  /\ n8n_position out = (px (position n), py (position n))
  /\ typeVersion out = 1%Z /\ credentials out = None
  /\ webhookId out = (if isWebhookTrigger n then Some ("nodex-" +:+ random_id k) else None)
  /\ snd (convertNode random_id k n) = (if isWebhookTrigger n then S k else k).
Proof.
  unfold convertNode, isWebhookTrigger, lowerLabel.
  by destruct (String.eqb (nodeType (data n)) "trigger"
               && Str.includes (Str.toLowerCase (label (data n))) "webhook").
Qed.

Lemma convertNodes_from_fields (k : nat) (nodes : list Node) :
  List.map n8n_id (convertNodes_from random_id k nodes) = List.map id nodes
  /\ List.map n8n_name (convertNodes_from random_id k nodes)
     = List.map (fun n => label (data n)) nodes
  /\ List.map n8n_position (convertNodes_from random_id k nodes)
     = List.map (fun n => (px (position n), py (position n))) nodes
  /\ webhookIds (convertNodes_from random_id k nodes)
     = List.map (fun j => "nodex-" +:+ random_id j)
         (seq k (length (List.filter isWebhookTrigger nodes))).
Proof.
  revert k. induction nodes as [|n rest IH]; intros k; [done|].
  cbn [convertNodes_from].
  pose proof (convertNode_fields k n) as (H1 & H2 & H3 & _ & _ & H6 & H7).
  destruct (convertNode random_id k n) as [out k'] eqn:E. simpl in *.
  destruct (IH k') as (I1 & I2 & I3 & I4).
  rewrite I1, I2, I3, H1, H2, H3. repeat split.
  unfold webhookIds in *. simpl. rewrite H6, I4, H7.
  by destruct (isWebhookTrigger n).
Qed.

End Emitted.

(** X3. The emitted nodes are the input nodes in their order: same ids, the
    labels as names, the same positions, version 1. A node carries a webhook
    id exactly when it is a webhook trigger, and the webhook triggers take
    the random draws in order, the first one the first draw. *)
Theorem emitted_nodes_in_order (random_id : nat -> string) (nodes : list Node) :
  let out := convertNodes random_id nodes in
  List.map n8n_id out = List.map id nodes
  /\ List.map n8n_name out = List.map (fun n => label (data n)) nodes
  /\ List.map n8n_position out
     = List.map (fun n => (px (position n), py (position n))) nodes
  /\ (forall o, o ∈ out -> typeVersion o = 1%Z /\ credentials o = None)
  /\ (forall i n o, nodes !! i = Some n -> out !! i = Some o ->
        (is_Some (webhookId o) <-> isWebhookTrigger n = true))
  /\ webhookIds out
     = List.map (fun j => "nodex-" +:+ random_id j)
         (seq 0 (length (List.filter isWebhookTrigger nodes))).
Proof.
  intros out. subst out. unfold convertNodes.
  destruct (convertNodes_from_fields random_id 0 nodes) as (H1 & H2 & H3 & H4).
  split; [exact H1|]. split; [exact H2|]. split; [exact H3|].
  split; [|split; [|exact H4]].
  - clear H1 H2 H3 H4. generalize 0%nat.
    induction nodes as [|n rest IH]; intros k o Ho;
      [by apply elem_of_nil in Ho|].
    cbn [convertNodes_from] in Ho.
    pose proof (convertNode_fields random_id k n) as (_ & _ & _ & Hv & Hc & _).
    destruct (convertNode random_id k n) as [o' k'].
    apply elem_of_cons in Ho as [->|Ho]; [done | by apply (IH k')].
  - intros i n o Hn Ho.
    destruct (TranslatorProps.lookup_convertNodes_from random_id 0 i nodes n Hn)
      as [k' Hk'].
    rewrite Hk' in Ho. injection Ho as <-.
    pose proof (convertNode_fields random_id k' n) as (_ & _ & _ & _ & _ & Hw & _).
    simpl in Hw. rewrite Hw.
    destruct (isWebhookTrigger n); split; intros H; try done; by destruct H.
Qed.

(** *** Edges that do not resolve *)





(** *** Unique ids *)




(** *** Webhook addresses *)

Lemma webhookPath_of_trigger (n : Node) :
  isWebhookTrigger n = true -> webhookPath n = "nodex-" +:+ id n.
Proof.
  intros Hw. unfold webhookPath, convertNode.
  unfold isWebhookTrigger, lowerLabel in Hw. rewrite Hw.
  apply andb_true_iff in Hw as [Hk Hl].
  cbn [fst parameters]. unfold getNodeParameters, getTriggerParameters, lowerLabel.
  rewrite Hk, Hl. reflexivity.
Qed.

(** X6. The three places that name the address of a webhook agree on the path:
    for every webhook trigger, in node order, the URL the API client builds
    and the URL of the test endpoint end in the [path] parameter of the
    emitted node, and with the base URL [http://localhost:5678] the two
    lists are the same. With the base URL of the local configuration, which
    ends in [/api/v1], no URL of the client is a test endpoint. *)
Theorem webhook_addresses_agree (now baseUrl : string) (nodes : list Node) :
  ApiClient.generateWebhookUrls baseUrl nodes
  = List.map (fun n => baseUrl +:+ "/webhook/" +:+ webhookPath n)
      (List.filter isWebhookTrigger nodes)
  /\ List.map ep_url (generateTestEndpoints now nodes)
     = List.map (fun n => "http://localhost:5678/webhook/" +:+ webhookPath n)
         (List.filter isWebhookTrigger nodes)
  /\ ApiClient.generateWebhookUrls "http://localhost:5678" nodes
     = List.map ep_url (generateTestEndpoints now nodes)
  /\ (forall u, u ∈ ApiClient.generateWebhookUrls ApiClient.N8N_CONFIGS_local nodes ->
       u ∉ List.map ep_url (generateTestEndpoints now nodes)).
Proof.
  assert (H1 : ApiClient.generateWebhookUrls baseUrl nodes
               = List.map (fun n => baseUrl +:+ "/webhook/" +:+ webhookPath n)
                   (List.filter isWebhookTrigger nodes)).
  { unfold ApiClient.generateWebhookUrls.
    change (fun n => String.eqb (nodeType (data n)) "trigger"
                     && Str.includes (Str.toLowerCase (label (data n))) "webhook")
      with isWebhookTrigger.
    apply map_ext_in. intros n [_ Hn]%filter_In.
    by rewrite (webhookPath_of_trigger n Hn). }
  assert (H2 : List.map ep_url (generateTestEndpoints now nodes)
     = List.map (fun n => "http://localhost:5678/webhook/" +:+ webhookPath n)
         (List.filter isWebhookTrigger nodes)).
  { unfold generateTestEndpoints. rewrite map_map.
    apply map_ext_in. intros n [_ Hn]%filter_In.
    by rewrite (webhookPath_of_trigger n Hn). }
  split; [exact H1|]. split; [exact H2|]. split.
  - rewrite H2. unfold ApiClient.generateWebhookUrls.
    change (fun n => String.eqb (nodeType (data n)) "trigger"
                     && Str.includes (Str.toLowerCase (label (data n))) "webhook")
      with isWebhookTrigger.
    apply map_ext_in. intros n [_ Hn]%filter_In.
    by rewrite (webhookPath_of_trigger n Hn).
  - intros u Hu Hv. unfold ApiClient.generateWebhookUrls in Hu.
    apply list_elem_of_In, in_map_iff in Hu as (n & <- & _).
    unfold generateTestEndpoints in Hv. rewrite map_map in Hv.
    apply list_elem_of_In, in_map_iff in Hv as (m & Hm & _).
    cbn [ep_url] in Hm. unfold ApiClient.N8N_CONFIGS_local in Hm.
    rewrite !string_app_cons in Hm. discriminate Hm.
Qed.

(** *** Requirements *)

Lemma nodeCredentials_names (n : Node) (c : string) :
  c ∈ nodeCredentials n -> c ∈ credentialNames.
Proof.
  unfold nodeCredentials, credentialNames. intros Hc.
  repeat (apply elem_of_app in Hc as [Hc|Hc]);
    repeat case_match; try (by apply elem_of_nil in Hc);
    apply list_elem_of_In in Hc as [<-|[]]; apply list_elem_of_In; simpl; tauto.
Qed.

(** X7. The requirement list holds at most the three known names, each once; an
    empty graph has no requirement. *)
Theorem requirements_are_bounded (nodes : list Node) :
  (forall c, c ∈ getRequiredCredentials nodes -> c ∈ credentialNames)
  /\ length (getRequiredCredentials nodes) <= 3
  /\ getRequiredCredentials [] = [].
Proof.
  assert (Hsub : forall c, c ∈ getRequiredCredentials nodes -> c ∈ credentialNames).
  { intros c (n & _ & Hc)%TranslatorProps.elem_of_getRequiredCredentials.
    by apply (nodeCredentials_names n). }
  split; [exact Hsub|]. split; [|done].
  change 3 with (length credentialNames).
  apply NoDup_incl_length.
  - apply NoDup_ListNoDup, TranslatorProps.NoDup_dedup_first.
  - intros c Hc. apply list_elem_of_In, Hsub, list_elem_of_In, Hc.
Qed.

(** X8. An action whose label says db, and not database, is translated to the
    Postgres node, yet the requirement list asks for a database connection
    only for the word database: such a graph gets a database node without
    the database requirement. *)
Theorem db_node_without_requirement (nodes : list Node) (n : Node) :
  n ∈ nodes ->
  nodeType (data n) = "action" ->
  Str.includes (lowerLabel n) "db" = true ->
  Str.includes (lowerLabel n) "llm" || Str.includes (lowerLabel n) "ai"
    || Str.includes (lowerLabel n) "gpt" = false ->
  (forall m, m ∈ nodes -> Str.includes (lowerLabel m) "database" = false) ->
  getN8nNodeType n = action_database
  /\ "Database Connection" ∉ getRequiredCredentials nodes.
Proof.
  intros Hn Hkind Hdb Hllm Hnone. split.
  - unfold getN8nNodeType. rewrite Hkind. simpl. rewrite Hllm.
    destruct (Str.includes (lowerLabel n) "email") eqn:E.
    + apply includes_email_ai in E.
      apply orb_false_iff in Hllm as [[_ Hai]%orb_false_iff _]. congruence.
    + by rewrite Hdb, orb_true_r.
  - intros (m & Hm & Hc)%TranslatorProps.elem_of_getRequiredCredentials.
    unfold nodeCredentials in Hc. rewrite (Hnone m Hm) in Hc.
    repeat (apply elem_of_app in Hc as [Hc|Hc]);
      repeat case_match; try (by apply elem_of_nil in Hc);
      apply list_elem_of_In in Hc as [Hc|[]]; discriminate Hc.
Qed.

Lemma db_node_without_requirement_witness :
  let n := {| id := "a1"; position := {| px := 50; py := 50 |};
              data := {| label := "Sync DB"; nodeType := "action"; locked := false;
                         compliance_reason := None; description := None |} |} in
  n ∈ [n]
  /\ getN8nNodeType n = action_database
  /\ "Database Connection" ∉ getRequiredCredentials [n].
Proof.
  intros n.
  assert (Hin : n ∈ [n]) by (apply list_elem_of_In; left; reflexivity).
  split; [exact Hin|].
  apply (db_node_without_requirement [n] n Hin); try reflexivity.
  intros m Hm. apply list_elem_of_In in Hm as [<-|[]]. reflexivity.
Defined.


End TranslatorExtra.

(* ===================================================================== *)
(** * Properties of the code generators *)
(* ===================================================================== *)

Module CodeGenProps.
Import CodeGen.

(** *** Dependencies *)

Ltac key_cases k :=
  destruct (decide (k = "node-cron")) as [->|?];
  [|destruct (decide (k = "openai")) as [->|?];
    [|destruct (decide (k = "nodemailer")) as [->|?];
      [|destruct (decide (k = "mysql2")) as [->|?];
        [|destruct (decide (k = "pg")) as [->|?]]]]].

Lemma needsPackage_other (k : string) (n : Node) :
  k <> "node-cron" -> k <> "openai" -> k <> "nodemailer" -> k <> "mysql2" -> k <> "pg" ->
  needsPackage k n = false.
Proof.
  intros H1 H2 H3 H4 H5. unfold needsPackage.
  apply String.eqb_neq in H1, H2, H3, H4, H5. by rewrite H1, H2, H3, H4, H5.
Qed.

Lemma lookup_addNodeDependencies (deps : gmap string string) (n : Node) (k : string) :
  addNodeDependencies deps n !! k
  = if needsPackage k n then Some (packageVersion k) else deps !! k.
Proof.
  unfold addNodeDependencies.
  destruct (String.eqb (nodeType (data n)) "trigger") eqn:Et;
    destruct (String.eqb (nodeType (data n)) "action") eqn:Ea;
    try (exfalso; apply String.eqb_eq in Et; rewrite Et in Ea; vm_compute in Ea;
         discriminate Ea);
    destruct (Str.includes (Str.toLowerCase (label (data n))) "schedule") eqn:Es;
    destruct (Str.includes (Str.toLowerCase (label (data n))) "llm"
              || Str.includes (Str.toLowerCase (label (data n))) "ai"
              || Str.includes (Str.toLowerCase (label (data n))) "gpt") eqn:E1;
    destruct (Str.includes (Str.toLowerCase (label (data n))) "email") eqn:E2;
    destruct (Str.includes (Str.toLowerCase (label (data n))) "database"
              || Str.includes (Str.toLowerCase (label (data n))) "db") eqn:E3;
    key_cases k;
    first [ rewrite needsPackage_other by done
          | unfold needsPackage; rewrite ?Et, ?Ea, ?Es, ?E1, ?E2, ?E3; simpl ];
    rewrite ?lookup_insert_eq, ?lookup_insert_ne by done;
    rewrite ?lookup_insert_eq, ?lookup_insert_ne by done;
    rewrite ?lookup_insert_eq, ?lookup_insert_ne by done;
    reflexivity.
Qed.

Lemma lookup_foldl_addNodeDependencies (deps : gmap string string) (nodes : list Node)
    (k : string) :
  foldl addNodeDependencies deps nodes !! k
  = if existsb (needsPackage k) nodes then Some (packageVersion k) else deps !! k.
Proof.
  revert deps. induction nodes as [|n rest IH]; intros deps; [done|].
  cbn [foldl existsb]. rewrite IH, lookup_addNodeDependencies.
  destruct (existsb (needsPackage k) rest); [by rewrite orb_true_r|].
  rewrite orb_false_r. done.
Qed.

Lemma lookup_getDependencies (nodes : list Node) (k : string) :
  getDependencies nodes !! k
  = if existsb (needsPackage k) nodes then Some (packageVersion k)
    else baseDependencies !! k.
Proof. apply lookup_foldl_addNodeDependencies. Qed.

(** X9. A package is among the dependencies exactly when it is one of the
    three fixed ones or some node calls for it; the version is then the one
    of the table, whatever the order of the nodes. *)
Theorem dependencies_by_need (nodes : list Node) (k v : string) :
  getDependencies nodes !! k = Some v
  <-> (exists n, n ∈ nodes /\ needsPackage k n = true) /\ v = packageVersion k
      \/ (forall n, n ∈ nodes -> needsPackage k n = false)
         /\ baseDependencies !! k = Some v.
Proof.
  rewrite lookup_getDependencies.
  destruct (existsb (needsPackage k) nodes) eqn:E.
  - apply existsb_exists in E as (n & Hin & Hn). apply list_elem_of_In in Hin.
    split.
    + intros [= <-]. left. eauto.
    + intros [[_ ->]|[Hno _]]; [done|]. rewrite (Hno n Hin) in Hn. done.
  - split.
    + intros Hb. right. split; [|done]. intros n Hin.
      destruct (needsPackage k n) eqn:Hn; [|done].
      assert (existsb (needsPackage k) nodes = true) as HE.
      { apply existsb_exists. exists n. split; [by apply list_elem_of_In|done]. }
      congruence.
    + intros [[(n & Hin & Hn) _]|[_ Hb]]; [|done].
      assert (existsb (needsPackage k) nodes = true) as HE.
      { apply existsb_exists. exists n. split; [by apply list_elem_of_In|done]. }
      congruence.
Qed.

Lemma hasDependency_getDependencies (nodes : list Node) (k : string) :
  k ∈ ["node-cron"; "openai"; "nodemailer"; "mysql2"; "pg"] ->
  hasDependency (getDependencies nodes) k = existsb (needsPackage k) nodes.
Proof.
  intros Hk. unfold hasDependency. rewrite lookup_getDependencies.
  destruct (existsb (needsPackage k) nodes).
  - repeat (apply elem_of_cons in Hk as [->|Hk]; [reflexivity|]).
    by apply elem_of_nil in Hk.
  - repeat (apply elem_of_cons in Hk as [->|Hk]; [reflexivity|]).
    by apply elem_of_nil in Hk.
Qed.

Lemma needs_nodemailer_openai (n : Node) :
  needsPackage "nodemailer" n = true -> needsPackage "openai" n = true.
Proof.
  unfold needsPackage. cbn [String.eqb Ascii.eqb Bool.eqb].
  intros [Ha He]%andb_true_iff. rewrite Ha. cbn [andb].
  apply TranslatorExtra.includes_email_ai in He. unfold Str.includes in *.
  rewrite He. by rewrite orb_true_r.
Qed.

Lemma nodemailer_with_openai (nodes : list Node) :
  hasDependency (getDependencies nodes) "nodemailer" = true ->
  hasDependency (getDependencies nodes) "openai" = true.
Proof.
  rewrite !hasDependency_getDependencies by set_solver.
  intros (n & Hin & Hn)%existsb_exists. apply existsb_exists.
  exists n. split; [done|]. by apply needs_nodemailer_openai.
Qed.

(** X10. The packages and the requirement list of the translator go
    together in one direction: a workflow whose generated code depends on
    the OpenAI package is said to need the OpenAI key, and one that depends
    on the e-mail package is said to need the e-mail credentials. The
    e-mail package never comes alone: an action whose label contains
    [email] contains [ai], so the OpenAI package and the OpenAI key come
    with it. *)
Theorem packages_have_requirements (nodes : list Node) (k : string) :
  hasDependency (getDependencies nodes) k = true ->
  (k = "openai" -> "OpenAI API Key" ∈ Translator.getRequiredCredentials nodes)
  /\ (k = "nodemailer" ->
      hasDependency (getDependencies nodes) "openai" = true
      /\ "SMTP/Email Credentials" ∈ Translator.getRequiredCredentials nodes
      /\ "OpenAI API Key" ∈ Translator.getRequiredCredentials nodes).
Proof.
  intros Hk. split.
  - intros ->. rewrite hasDependency_getDependencies in Hk by set_solver.
    apply existsb_exists in Hk as (n & Hin & Hn). apply list_elem_of_In in Hin.
    apply TranslatorProps.elem_of_getRequiredCredentials. exists n. split; [done|].
    unfold needsPackage in Hn. cbn [String.eqb Ascii.eqb Bool.eqb] in Hn.
    apply andb_true_iff in Hn as [_ Hn].
    unfold Translator.nodeCredentials, Translator.lowerLabel. rewrite Hn.
    apply list_elem_of_In. simpl. by left.
  - intros ->. split; [by apply nodemailer_with_openai|].
    rewrite hasDependency_getDependencies in Hk by set_solver.
    apply existsb_exists in Hk as (n & Hin & Hn). apply list_elem_of_In in Hin.
    unfold needsPackage in Hn. cbn [String.eqb Ascii.eqb Bool.eqb] in Hn.
    apply andb_true_iff in Hn as [_ Hn].
    assert (He : "SMTP/Email Credentials" ∈ Translator.getRequiredCredentials nodes).
    { apply TranslatorProps.elem_of_getRequiredCredentials. exists n. split; [done|].
      by apply TranslatorProps.email_credentials_of_node. }
    split; [exact He|].
    apply TranslatorProps.elem_of_getRequiredCredentials. exists n. split; [done|].
    unfold Translator.nodeCredentials, Translator.lowerLabel.
    rewrite (TranslatorExtra.includes_email_ai _ Hn), orb_true_r.
    apply list_elem_of_In. simpl. by left.
Qed.

Lemma packages_have_requirements_witness :
  let n := {| id := "a1"; position := {| px := 50; py := 50 |};
              data := {| label := "Send Email"; nodeType := "action"; locked := false;
                         compliance_reason := None; description := None |} |} in
  hasDependency (getDependencies [n]) "nodemailer" = true
  /\ hasDependency (getDependencies [n]) "openai" = true
  /\ "SMTP/Email Credentials" ∈ Translator.getRequiredCredentials [n]
  /\ "OpenAI API Key" ∈ Translator.getRequiredCredentials [n].
Proof.
  intros n.
  assert (H : hasDependency (getDependencies [n]) "nodemailer" = true)
    by (vm_compute; reflexivity).
  split; [exact H|].
  exact (proj2 (packages_have_requirements [n] "nodemailer" H) eq_refl).
Defined.

(** X11. The import block of the generated program: the express line
    first, the cors and dotenv lines last, and between them one line for
    each of the four optional packages that some node calls for, in a fixed
    order. The pg package, although a dependency, is never imported. *)
Theorem imports_by_need (nodes : list Node) :
  importLines nodes
  = ["const express = require('express');"]
    ++ (if existsb (needsPackage "node-cron") nodes
        then ["const cron = require('node-cron');"] else [])
    ++ (if existsb (needsPackage "openai") nodes
        then ["const { OpenAI } = require('openai');"] else [])
    ++ (if existsb (needsPackage "nodemailer") nodes
        then ["const nodemailer = require('nodemailer');"] else [])
    ++ (if existsb (needsPackage "mysql2") nodes
        then ["const mysql = require('mysql2/promise');"] else [])
    ++ ["const cors = require('cors');"; "require('dotenv').config();"].
Proof.
  unfold importLines.
  rewrite !hasDependency_getDependencies by set_solver.
  assert (Hc : hasDependency (getDependencies nodes) "cors" = true).
  { unfold hasDependency. rewrite lookup_getDependencies.
    replace (existsb (needsPackage "cors") nodes) with false; [reflexivity|].
    symmetry. apply not_true_is_false. intros (n & _ & Hn)%existsb_exists.
    vm_compute in Hn. discriminate Hn. }
  rewrite Hc. reflexivity.
Qed.

(** *** Function names *)

Ltac all_chars c := destruct c as [[] [] [] [] [] [] [] []]; vm_compute; try reflexivity; try discriminate.

Lemma eqb_underscore (c : ascii) : Ascii.eqb c underscore = true <-> c = underscore.
Proof. apply Ascii.eqb_eq. Qed.

Lemma isNameChar_replace (c : ascii) :
  isNameChar (Str.lower_ascii (if isAlnum c then c else underscore)) = true.
Proof. all_chars c. Qed.

Lemma lower_underscore (c : ascii) :
  Ascii.eqb (Str.lower_ascii c) underscore = Ascii.eqb c underscore.
Proof. all_chars c. Qed.




Lemma allChars_lower_replace (s : string) :
  allChars (fun c => isNameChar (Str.lower_ascii c)) (replaceNonAlnum s) = true.
Proof.
  induction s as [|c s IH]; [done|].
  cbn [replaceNonAlnum allChars]. by rewrite isNameChar_replace, IH.
Qed.

Lemma allChars_collapse (p : ascii -> bool) (s : string) :
  allChars p s = true -> allChars p (collapseUnderscores s) = true.
Proof.
  induction s as [|c s IH]; [done|].
  cbn [allChars collapseUnderscores]. intros [Hc Hs]%andb_true_iff.
  specialize (IH Hs).
  destruct (Ascii.eqb c underscore); [|by cbn [allChars]; rewrite Hc, IH].
  destruct s as [|c' s']; [by cbn [allChars]; rewrite Hc|].
  destruct (Ascii.eqb c' underscore); [done|].
  by cbn [allChars]; rewrite Hc, IH.
Qed.

Lemma allChars_dropTrailing (p : ascii -> bool) (s : string) :
  allChars p s = true -> allChars p (dropTrailingUnderscore s) = true.
Proof.
  induction s as [|c s IH]; [done|].
  cbn [allChars]. intros [Hc Hs]%andb_true_iff.
  destruct s as [|c' s'].
  - cbn [dropTrailingUnderscore]. destruct (Ascii.eqb c underscore); [done|].
    by cbn [allChars]; rewrite Hc.
  - change (dropTrailingUnderscore (String c (String c' s')))
      with (String c (dropTrailingUnderscore (String c' s'))).
    cbn [allChars]. by rewrite Hc, (IH Hs).
Qed.

Lemma allChars_strip (p : ascii -> bool) (s : string) :
  allChars p s = true -> allChars p (stripUnderscores s) = true.
Proof.
  destruct s as [|c s]; [done|]. unfold stripUnderscores.
  destruct (Ascii.eqb c underscore).
  - cbn [allChars]. intros [_ Hs]%andb_true_iff. by apply allChars_dropTrailing.
  - apply allChars_dropTrailing.
Qed.

Lemma allChars_lower (s : string) :
  allChars (fun c => isNameChar (Str.lower_ascii c)) s = true ->
  allChars isNameChar (Str.toLowerCase s) = true.
Proof.
  induction s as [|c s IH]; [done|].
  cbn [allChars Str.toLowerCase]. intros [Hc Hs]%andb_true_iff.
  by rewrite Hc, (IH Hs).
Qed.

Lemma collapse_first (s : string) :
  firstChar (collapseUnderscores s) = firstChar s.
Proof.
  induction s as [|c s IH]; [done|].
  cbn [collapseUnderscores].
  destruct (Ascii.eqb c underscore) eqn:E; [|done].
  destruct s as [|c' s']; [done|].
  destruct (Ascii.eqb c' underscore) eqn:E'; [|done].
  rewrite IH. cbn [firstChar].
  apply eqb_underscore in E, E'. congruence.
Qed.

Lemma noDouble_collapse (s : string) :
  noDoubleUnderscore (collapseUnderscores s) = true.
Proof.
  induction s as [|c s IH]; [done|].
  cbn [collapseUnderscores].
  destruct (Ascii.eqb c underscore) eqn:E.
  - destruct s as [|c' s'].
    + cbn [noDoubleUnderscore]. by rewrite andb_false_r.
    + destruct (Ascii.eqb c' underscore) eqn:E'; [exact IH|].
      change (noDoubleUnderscore (String c (collapseUnderscores (String c' s'))) = true).
      cbn [noDoubleUnderscore]. rewrite IH, andb_true_r.
      pose proof (collapse_first (String c' s')) as Hf.
      destruct (collapseUnderscores (String c' s')) as [|d r];
        [by rewrite andb_false_r|].
      cbn [firstChar] in Hf. injection Hf as ->. by rewrite E', andb_false_r.
  - cbn [noDoubleUnderscore]. by rewrite E, IH.
Qed.

Lemma noDouble_tail (c : ascii) (s : string) :
  noDoubleUnderscore (String c s) = true -> noDoubleUnderscore s = true.
Proof. cbn [noDoubleUnderscore]. by intros [_ ?]%andb_true_iff. Qed.

Lemma dropTrailing_cons (c c' : ascii) (s : string) :
  dropTrailingUnderscore (String c (String c' s))
  = String c (dropTrailingUnderscore (String c' s)).
Proof. reflexivity. Qed.

Lemma first_dropTrailing_Some (s : string) (d : ascii) :
  firstChar (dropTrailingUnderscore s) = Some d -> firstChar s = Some d.
Proof.
  destruct s as [|c [|c' s']]; [done| |by rewrite dropTrailing_cons].
  cbn [dropTrailingUnderscore]. by destruct (Ascii.eqb c underscore).
Qed.

Lemma noDouble_single (c : ascii) : noDoubleUnderscore (String c "") = true.
Proof. cbn [noDoubleUnderscore]. by rewrite andb_false_r. Qed.

Lemma noDouble_dropTrailing (s : string) :
  noDoubleUnderscore s = true -> noDoubleUnderscore (dropTrailingUnderscore s) = true.
Proof.
  induction s as [|c s IH]; [done|].
  destruct s as [|c' s'].
  - intros _. cbn [dropTrailingUnderscore].
    destruct (Ascii.eqb c underscore); [done|apply noDouble_single].
  - rewrite dropTrailing_cons. intros H.
    pose proof (IH (noDouble_tail _ _ H)) as IH'.
    cbn [noDoubleUnderscore] in H. apply andb_true_iff in H as [H _].
    cbn [noDoubleUnderscore]. rewrite IH', andb_true_r.
    destruct (Ascii.eqb c underscore); [|reflexivity]. cbn [andb] in *.
    pose proof (first_dropTrailing_Some (String c' s')) as Hf.
    destruct (dropTrailingUnderscore (String c' s')) as [|d r]; [reflexivity|].
    specialize (Hf d eq_refl). cbn [firstChar] in Hf. injection Hf as <-. exact H.
Qed.

Lemma last_dropTrailing (s : string) :
  noDoubleUnderscore s = true ->
  lastChar (dropTrailingUnderscore s) <> Some underscore.
Proof.
  induction s as [|c s IH]; [done|].
  destruct s as [|c' s'].
  - intros _. cbn [dropTrailingUnderscore].
    destruct (Ascii.eqb c underscore) eqn:E; [done|].
    cbn [lastChar]. intros [= ->]. by rewrite Ascii.eqb_refl in E.
  - rewrite dropTrailing_cons. intros H.
    pose proof (IH (noDouble_tail _ _ H)) as IH'.
    cbn [noDoubleUnderscore] in H. apply andb_true_iff in H as [H _].
    destruct s' as [|c'' s''].
    + cbn [dropTrailingUnderscore] in *.
      destruct (Ascii.eqb c' underscore) eqn:E'.
      * cbn [lastChar]. intros [= ->]. by rewrite Ascii.eqb_refl in H.
      * exact IH'.
    + rewrite dropTrailing_cons in *. exact IH'.
Qed.

Lemma first_dropTrailing (s : string) :
  firstChar s <> Some underscore ->
  firstChar (dropTrailingUnderscore s) <> Some underscore.
Proof.
  destruct s as [|c [|c' s']]; [done| |by rewrite dropTrailing_cons].
  cbn [dropTrailingUnderscore]. by destruct (Ascii.eqb c underscore).
Qed.

Lemma strip_shape (s : string) :
  noDoubleUnderscore s = true ->
  firstChar (stripUnderscores s) <> Some underscore
  /\ lastChar (stripUnderscores s) <> Some underscore
  /\ noDoubleUnderscore (stripUnderscores s) = true.
Proof.
  destruct s as [|c s]; [done|]. intros H. unfold stripUnderscores.
  destruct (Ascii.eqb c underscore) eqn:E.
  - pose proof (noDouble_tail _ _ H) as Ht.
    split; [|split; [by apply last_dropTrailing|by apply noDouble_dropTrailing]].
    apply first_dropTrailing. cbn [noDoubleUnderscore] in H.
    apply andb_true_iff in H as [H _]. rewrite E in H.
    destruct s as [|c' s']; [done|]. cbn [firstChar]. intros [= ->].
    by rewrite Ascii.eqb_refl in H.
  - split; [|split; [by apply last_dropTrailing|by apply noDouble_dropTrailing]].
    apply first_dropTrailing. cbn [firstChar]. intros [= ->].
    by rewrite Ascii.eqb_refl in E.
Qed.

Lemma lower_shape (s : string) :
  firstChar s <> Some underscore ->
  lastChar s <> Some underscore ->
  noDoubleUnderscore s = true ->
  firstChar (Str.toLowerCase s) <> Some underscore
  /\ lastChar (Str.toLowerCase s) <> Some underscore
  /\ noDoubleUnderscore (Str.toLowerCase s) = true.
Proof.
  intros Hf Hl Hd. split; [|split].
  - destruct s as [|c s]; [done|]. cbn [Str.toLowerCase firstChar] in *.
    intros [= H]. apply eqb_underscore in H. rewrite lower_underscore in H.
    apply eqb_underscore in H. congruence.
  - clear Hf Hd. induction s as [|c s IH]; [done|].
    destruct s as [|c' s'].
    + cbn [Str.toLowerCase lastChar] in *.
      intros [= H]. apply eqb_underscore in H. rewrite lower_underscore in H.
      apply eqb_underscore in H. congruence.
    + exact (IH Hl).
  - clear Hf Hl. induction s as [|c s IH]; [done|].
    cbn [noDoubleUnderscore] in Hd. apply andb_true_iff in Hd as [H Hd].
    cbn [Str.toLowerCase noDoubleUnderscore]. rewrite (IH Hd), andb_true_r.
    rewrite lower_underscore.
    destruct s as [|c' s']; [done|]. cbn [Str.toLowerCase].
    by rewrite lower_underscore.
Qed.

Lemma cleanName_cleanLabel (label : string) : cleanName (cleanLabel label) = true.
Proof.
  unfold cleanName, cleanLabel.
  pose proof (noDouble_collapse (replaceNonAlnum label)) as Hd.
  destruct (strip_shape _ Hd) as (Hf & Hl & Hd').
  destruct (lower_shape _ Hf Hl Hd') as (Hf' & Hl' & Hd'').
  rewrite Hd'', andb_true_r.
  rewrite !bool_decide_eq_false_2 by done. cbn [negb]. rewrite !andb_true_r.
  apply allChars_lower, allChars_strip, allChars_collapse, allChars_lower_replace.
Qed.











Lemma allChars_weaken (p q : ascii -> bool) (s : string) :
  (forall c, p c = true -> q c = true) -> allChars p s = true -> allChars q s = true.
Proof.
  intros Hpq. induction s as [|c s IH]; [done|].
  cbn [allChars]. intros [Hc Hs]%andb_true_iff. by rewrite (Hpq c Hc), (IH Hs).
Qed.

Lemma allChars_replace (s : string) :
  allChars (fun c => isAlnum c || Ascii.eqb c underscore) (replaceNonAlnum s) = true.
Proof.
  induction s as [|c s IH]; [done|].
  cbn [replaceNonAlnum allChars]. rewrite IH, andb_true_r.
  destruct (isAlnum c) eqn:E; [by rewrite E|]. by rewrite orb_true_r.
Qed.

Lemma isNameChar_ident (c : ascii) :
  isNameChar c = true -> isAlnum c || Ascii.eqb c underscore = true.
Proof. all_chars c. Qed.

(** X12. The function name of a node. The cleaned label is in lower
    case, made of letters, digits and single underscores, and neither starts
    nor ends with an underscore. Whether it comes from the label or, for an
    empty cleaned label, from the node id, the name is never empty and holds
    nothing but letters, digits and underscores. *)
Theorem function_name_shape (label nodeId : string) :
  cleanName (cleanLabel label) = true
  /\ generateFunctionName label nodeId <> ""
  /\ allChars (fun c => isAlnum c || Ascii.eqb c underscore)
       (generateFunctionName label nodeId) = true.
Proof.
  pose proof (cleanName_cleanLabel label) as Hc.
  split; [exact Hc|].
  unfold generateFunctionName, Str.or_else.
  destruct (String.eqb (cleanLabel label) "") eqn:E.
  - split; [done|].
    rewrite !TranslatorExtra.string_app_cons, TranslatorExtra.string_app_nil_l.
    cbn [allChars]. rewrite allChars_replace. reflexivity.
  - split; [by apply String.eqb_neq in E|].
    unfold cleanName in Hc.
    apply andb_true_iff in Hc as [[[Ha _]%andb_true_iff _]%andb_true_iff _].
    exact (allChars_weaken _ _ _ isNameChar_ident Ha).
Qed.




End CodeGenProps.

(* ===================================================================== *)
(** * Further properties of the edit layer *)
(* ===================================================================== *)

Module EditorExtra.
Import Editor.

(** *** The toolbar deletion *)






(** *** The context menu *)

Lemma elem_of_deleteNode_nodes (nodeId : string) (st : MenuCanvas) (n : Node) :
  n ∈ m_nodes (deleteNode nodeId st) <-> n ∈ m_nodes st /\ id n <> nodeId.
Proof.
  cbn [deleteNode m_nodes]. rewrite list_elem_of_In, filter_In, <- list_elem_of_In.
  by rewrite negb_true_iff, String.eqb_neq.
Qed.

Lemma elem_of_deleteNode_edges (nodeId : string) (st : MenuCanvas) (e : Edge) :
  e ∈ m_edges (deleteNode nodeId st)
  <-> e ∈ m_edges st /\ source e <> nodeId /\ target e <> nodeId.
Proof.
  cbn [deleteNode m_edges]. rewrite list_elem_of_In, filter_In, <- list_elem_of_In.
  by rewrite andb_true_iff, !negb_true_iff, !String.eqb_neq.
Qed.

Lemma deleteNode_resolves (nodeId : string) (st : MenuCanvas) :
  edgesResolve (m_nodes st) (m_edges st) ->
  edgesResolve (m_nodes (deleteNode nodeId st)) (m_edges (deleteNode nodeId st)).
Proof.
  intros Hres e (He & Hs & Ht)%elem_of_deleteNode_edges.
  destruct (Hres e He) as [(s & Hsin & Hsid) (t & Htin & Htid)].
  split; [exists s|exists t]; (split; [|done]);
    apply elem_of_deleteNode_nodes; split; try done; congruence.
Qed.

(** X15. The deletion of the context menu removes the node and every edge that
    touches it, so edges that referred to existing nodes still do; the menu
    is closed in every case. For a node that is not locked, no node with
    its id and no edge from or to it remains. *)
Theorem menu_deletion_leaves_no_dangling_edge (menu : MenuCanvas) :
  edgesResolve (m_nodes menu) (m_edges menu) ->
  edgesResolve (m_nodes (handleDelete menu)) (m_edges (handleDelete menu))
  /\ contextMenuNode (handleDelete menu) = None
  /\ (forall n, contextMenuNode menu = Some n -> locked (data n) = false ->
        (forall m, m ∈ m_nodes (handleDelete menu) -> id m <> id n)
        /\ (forall e, e ∈ m_edges (handleDelete menu) ->
              source e <> id n /\ target e <> id n)).
Proof.
  intros Hres. unfold handleDelete. split; [|split; [done|]].
  - destruct (contextMenuNode menu) as [n|]; [|done].
    destruct (locked (data n)); cbn [negb m_nodes m_edges]; [done|].
    by apply deleteNode_resolves.
  - intros n -> ->. cbn [negb m_nodes m_edges]. split.
    + by intros m [_ ?]%elem_of_deleteNode_nodes.
    + by intros e (_ & ? & ?)%elem_of_deleteNode_edges.
Qed.

Lemma menu_deletion_leaves_no_dangling_edge_witness :
  let mk i := {| id := i; position := {| px := 50; py := 50 |};
                 data := {| label := i; nodeType := "action"; locked := false;
                            compliance_reason := None; description := None |} |} in
  let menu := {| m_nodes := [mk "a"; mk "b"];
                 m_edges := [ {| edge_id := "e1"; source := "a"; target := "b" |} ];
                 contextMenuNode := Some (mk "a") |} in
  edgesResolve (m_nodes menu) (m_edges menu)
  /\ m_edges (handleDelete menu) = []
  /\ edgesResolve (m_nodes (handleDelete menu)) (m_edges (handleDelete menu)).
Proof.
  intros mk menu.
  assert (Hres : edgesResolve (m_nodes menu) (m_edges menu)).
  { intros e He. apply list_elem_of_In in He. simpl in He.
    destruct He as [<-|[]]. split; simpl.
    - exists (mk "a"). split; [apply list_elem_of_In; simpl; tauto | reflexivity].
    - exists (mk "b"). split; [apply list_elem_of_In; simpl; tauto | reflexivity]. }
  split; [exact Hres|]. split; [reflexivity|].
  exact (proj1 (menu_deletion_leaves_no_dangling_edge menu Hres)).
Defined.

(** X16. What the deletion of the context menu reports through [onFlowChange]
    is the new node list with the old edge list: an edge of the deleted node
    is gone from the canvas but still in the report, where it refers to a
    node the report does not hold. *)
Theorem deletion_reports_stale_edges (nodeId : string) (st : MenuCanvas) (e : Edge) :
  e ∈ m_edges st ->
  (source e = nodeId \/ target e = nodeId) ->
  (e ∉ m_edges (deleteNode nodeId st))
  /\ e ∈ snd (CanvasMenu.reportedFlow nodeId st)
  /\ fst (CanvasMenu.reportedFlow nodeId st) = m_nodes (deleteNode nodeId st)
  /\ ~ edgesResolve (fst (CanvasMenu.reportedFlow nodeId st))
         (snd (CanvasMenu.reportedFlow nodeId st)).
Proof.
  intros He Hends. split; [|split; [done|split; [done|]]].
  - intros (_ & Hs & Ht)%elem_of_deleteNode_edges. by destruct Hends.
  - intros Hres. destruct (Hres e He) as [(s & Hsin & Hsid) (t & Htin & Htid)].
    change (fst (CanvasMenu.reportedFlow nodeId st))
      with (m_nodes (deleteNode nodeId st)) in Hsin, Htin.
    apply elem_of_deleteNode_nodes in Hsin as [_ Hs], Htin as [_ Ht].
    destruct Hends; congruence.
Qed.

Lemma deletion_reports_stale_edges_witness :
  let mk i := {| id := i; position := {| px := 50; py := 50 |};
                 data := {| label := i; nodeType := "action"; locked := false;
                            compliance_reason := None; description := None |} |} in
  let e := {| edge_id := "e1"; source := "a"; target := "b" |} in
  let st := {| m_nodes := [mk "a"; mk "b"]; m_edges := [e];
               contextMenuNode := Some (mk "a") |} in
  e ∈ m_edges st
  /\ CanvasMenu.reportedFlow "a" st = ([mk "b"], [e])
  /\ ~ edgesResolve (fst (CanvasMenu.reportedFlow "a" st))
         (snd (CanvasMenu.reportedFlow "a" st)).
Proof.
  intros mk e st.
  assert (He : e ∈ m_edges st) by (apply list_elem_of_In; left; reflexivity).
  split; [exact He|]. split; [reflexivity|].
  exact (proj2 (proj2 (proj2
    (deletion_reports_stale_edges "a" st e He (or_introl eq_refl))))).
Defined.




End EditorExtra.

(* ===================================================================== *)
(** * Further properties of the layout solver *)
(* ===================================================================== *)

Module LayoutExtra.
Import Layout LayoutSpec.

(** *** Room on the grid *)











(** *** Full rearrangement *)

Lemma placeEach_id (index : nat) (group : list nat) (pos : Z -> Z * Z)
    (store : list Node) (r : nat) :
  id <$> placeEach index group pos store !! r = id <$> store !! r.
Proof.
  revert index store. induction group as [|r0 rest IH]; intros index store; simpl; [done|].
  rewrite IH. destruct (decide (r0 = r)) as [->|Hne].
  - rewrite list_lookup_alter_eq. by destruct (store !! r).
  - by rewrite list_lookup_alter_ne.
Qed.

Lemma placeEach_related (index : nat) (group : list nat) (pos : Z -> Z * Z)
    (a b : list Node) (r : nat) :
  relatedAt a b r ->
  relatedAt (placeEach index group pos a) (placeEach index group pos b) r.
Proof.
  intros [Hid Hdata]. unfold relatedAt.
  by rewrite !placeEach_id, !LayoutProps.placeEach_data.
Qed.

Lemma placeEach_agree (index : nat) (group : list nat) (pos : Z -> Z * Z)
    (a b : list Node) (r : nat) :
  NoDup group -> relatedAt a b r ->
  r ∈ group \/ a !! r = b !! r ->
  placeEach index group pos a !! r = placeEach index group pos b !! r.
Proof.
  intros Hnd [Hid Hdata] Hr. rewrite !LayoutProps.placeEach_slot by done.
  destruct (slotFrom index group r) as [k|] eqn:E.
  - destruct (a !! r) as [n|], (b !! r) as [m|]; try done.
    cbn in *. injection Hid as Hid. injection Hdata as Hdata.
    unfold setPosition. by rewrite Hid, Hdata.
  - apply LayoutProps.slotFrom_None in E. by destruct Hr.
Qed.

Lemma refsFrom_data (s : nat) (p : Node -> bool) (a b : list Node) :
  (forall n m, data n = data m -> p n = p m) ->
  List.map data a = List.map data b ->
  refsFrom s p a = refsFrom s p b.
Proof.
  intros Hp. revert s b. induction a as [|n a IH]; intros s [|m b] Hab; try done.
  cbn in Hab. injection Hab as Hnm Hab. cbn [refsFrom].
  by rewrite (Hp n m Hnm), (IH (S s) b Hab).
Qed.

Ltac by_data :=
  let n := fresh in let m := fresh in let H := fresh in
  intros n m H;
  unfold isOther, isTrigger, isAction, isOutput, isCompliance; by rewrite H.

Ltac carry R0 :=
  apply placeEach_agree;
  [ apply LayoutProps.NoDup_refsFrom
  | repeat apply placeEach_related; exact R0
  | ].

Lemma arrange_agree (a b : list Node) :
  sameButPosition a b -> arrangeNodesIntelligently a = arrangeNodesIntelligently b.
Proof.
  intros [Hid Hdata]. apply list_eq. intros r.
  assert (R0 : relatedAt a b r).
  { unfold relatedAt. rewrite <- !list_lookup_fmap.
    change (id <$> a) with (List.map id a). change (id <$> b) with (List.map id b).
    change (data <$> a) with (List.map data a).
    change (data <$> b) with (List.map data b).
    by rewrite Hid, Hdata. }
  unfold arrangeNodesIntelligently. cbv zeta. unfold refs.
  rewrite <- (refsFrom_data 0 isTrigger a b) by (by_data || done).
  rewrite <- (refsFrom_data 0 isAction a b) by (by_data || done).
  rewrite <- (refsFrom_data 0 isOutput a b) by (by_data || done).
  rewrite <- (refsFrom_data 0 isCompliance a b) by (by_data || done).
  rewrite <- (refsFrom_data 0 isOther a b) by (by_data || done).
  destruct (a !! r) as [n|] eqn:En.
  - assert (Hin : forall p, p n = true -> r ∈ refsFrom 0 p a).
    { intros p Hp. apply (LayoutProps.elem_of_refs p a r). by exists n. }
    destruct (isCompliance n) eqn:Ec.
    { carry R0. left. by apply Hin. }
    destruct (isOutput n) eqn:Eo.
    { carry R0. right. carry R0. left. by apply Hin. }
    destruct (isTrigger n) eqn:Et.
    { carry R0. right. carry R0. right. carry R0. right. carry R0. right.
      carry R0. left. by apply Hin. }
    destruct (isAction n) eqn:Ea.
    { carry R0. right. carry R0. right. carry R0. right. carry R0. left.
      by apply Hin. }
    carry R0. right. carry R0. right. carry R0. left. apply Hin.
    unfold isOther. by rewrite Et, Ea, Eo, Ec.
  - carry R0. right. carry R0. right. carry R0. right. carry R0. right.
    carry R0. right. rewrite En. destruct R0 as [R0 _]. rewrite En in R0.
    by destruct (b !! r).
Qed.

Lemma arrange_sameButPosition (newNodes : list Node) :
  sameButPosition (arrangeNodesIntelligently newNodes) newNodes.
Proof.
  unfold sameButPosition, arrangeNodesIntelligently. cbv zeta. split.
  - apply list_eq. intros r.
    change (List.map id ?l) with (id <$> l). rewrite !list_lookup_fmap.
    by rewrite !placeEach_id.
  - apply list_eq. intros r.
    change (List.map data ?l) with (data <$> l). rewrite !list_lookup_fmap.
    by rewrite !LayoutProps.placeEach_data.
Qed.

(** X18. The rearrangement moves nodes and does nothing else: the result has the
    same nodes in the same order, with their ids and data. Arranging an
    arranged canvas changes nothing. *)
Theorem rearrangement_keeps_nodes (newNodes : list Node) :
  length (arrangeNodesIntelligently newNodes) = length newNodes
  /\ List.map id (arrangeNodesIntelligently newNodes) = List.map id newNodes
  /\ List.map data (arrangeNodesIntelligently newNodes) = List.map data newNodes
  /\ arrangeNodesIntelligently (arrangeNodesIntelligently newNodes)
     = arrangeNodesIntelligently newNodes.
Proof.
  destruct (arrange_sameButPosition newNodes) as [Hid Hdata].
  split; [|split; [exact Hid|split; [exact Hdata|]]].
  - rewrite <- (length_map id), Hid. apply length_map.
  - apply arrange_agree. by split.
Qed.

(** X19. Where the rearrangement puts a node depends on the order, the types
    and the locks of the nodes, not on where the nodes were: two canvases
    that differ only in positions are arranged alike. *)
Theorem rearrangement_ignores_positions (a b : list Node) :
  sameButPosition a b -> arrangeNodesIntelligently a = arrangeNodesIntelligently b.
Proof. apply arrange_agree. Qed.

Lemma rearrangement_ignores_positions_witness :
  let mk x y kind :=
    {| id := kind; position := {| px := x; py := y |};
       data := {| label := kind; nodeType := kind; locked := false;
                  compliance_reason := None; description := None |} |} in
  let a := [mk 0%Q 0%Q "trigger"; mk 0%Q 0%Q "action"] in
  let b := [mk 700%Q 300%Q "trigger"; mk 20%Q 900%Q "action"] in
  sameButPosition a b
  /\ arrangeNodesIntelligently a = arrangeNodesIntelligently b.
Proof.
  intros mk a b.
  assert (H : sameButPosition a b) by (split; reflexivity).
  split; [exact H|]. exact (rearrangement_ignores_positions a b H).
Defined.


End LayoutExtra.

(* ===================================================================== *)
(** * Properties of the canvas application *)
(* ===================================================================== *)

Module WorkflowProps.
Import Workflow.

(** *** Editing a node *)

Lemma applyEdit_fixed (i newLabel newDescription : string) (n : Node) :
  id (applyEdit i newLabel newDescription n) = id n
  /\ position (applyEdit i newLabel newDescription n) = position n
  /\ nodeType (data (applyEdit i newLabel newDescription n)) = nodeType (data n)
  /\ locked (data (applyEdit i newLabel newDescription n)) = locked (data n)
  /\ compliance_reason (data (applyEdit i newLabel newDescription n))
     = compliance_reason (data n).
Proof. unfold applyEdit. by destruct (String.eqb (id n) i). Qed.

(** X20. Saving an edit rewrites the label and the description of the nodes
    that carry the id of the edited node and nothing else: ids, positions,
    types, locks and compliance reasons of all nodes stay, in the same
    order, and so do the edges and the tracked positions. The lock is not
    consulted: a locked node is renamed like any other. *)
Theorem edit_changes_label_and_description_only
    (newLabel newDescription : string) (st : App) :
  let st' := saveEditedNode newLabel newDescription st in
  List.map id (nodes st') = List.map id (nodes st)
  /\ List.map position (nodes st') = List.map position (nodes st)
  /\ List.map (fun n => nodeType (data n)) (nodes st')
     = List.map (fun n => nodeType (data n)) (nodes st)
  /\ List.map (fun n => locked (data n)) (nodes st')
     = List.map (fun n => locked (data n)) (nodes st)
  /\ List.map (fun n => compliance_reason (data n)) (nodes st')
     = List.map (fun n => compliance_reason (data n)) (nodes st)
  /\ edges st' = edges st
  /\ allPositions st' = allPositions st
  /\ (forall editing, editingNode st = Some editing ->
        editingNode st' = None /\ showEditModal st' = false
        /\ forall i n, nodes st !! i = Some n ->
             exists n', nodes st' !! i = Some n'
               /\ (id n = id editing ->
                     label (data n') = newLabel
                     /\ description (data n') = Some newDescription)
               /\ (id n <> id editing -> n' = n)).
Proof.
  intros st'. subst st'. unfold saveEditedNode.
  destruct (editingNode st) as [editing|]; [|by repeat split].
  cbn [nodes edges allPositions editingNode showEditModal addChatMessage setNodes].
  rewrite !map_map.
  do 7 (split;
    [first [ reflexivity
           | apply map_ext; intros n;
             by destruct (applyEdit_fixed (id editing) newLabel newDescription n)
               as (? & ? & ? & ? & ?) ]|]).
  intros ? [= <-]. split; [done|]. split; [done|].
  intros i n Hn. exists (applyEdit (id editing) newLabel newDescription n).
  split.
  { change (List.map ?f ?l) with (f <$> l). by rewrite list_lookup_fmap, Hn. }
  unfold applyEdit. split.
  - intros ->. by rewrite String.eqb_refl.
  - intros Hne. apply String.eqb_neq in Hne. by rewrite Hne.
Qed.

(** *** Loading a template *)

Lemma stampNodes_lookup (timestamp index : Z) (ns : list Node) (i : nat) :
  stampNodes timestamp index ns !! i
  = (fun n => {| id := stamped (id n) timestamp (index + Z.of_nat i);
                 position := position n; data := data n |}) <$> ns !! i.
Proof.
  revert index i. induction ns as [|n ns IH]; intros index i; [done|].
  destruct i as [|i]; cbn [stampNodes lookup list_lookup].
  - cbn. by rewrite Z.add_0_r.
  - change ((n :: ns) !! S i) with (ns !! i).
    rewrite IH. destruct (ns !! i); [|done]. cbn. do 3 f_equal. lia.
Qed.

Lemma stampNodes_length (timestamp index : Z) (ns : list Node) :
  length (stampNodes timestamp index ns) = length ns.
Proof.
  revert index. induction ns as [|n ns IH]; intros index; [done|].
  cbn [stampNodes length]. by rewrite IH.
Qed.

Lemma stampNodes_fields (timestamp index : Z) (ns : list Node) :
  List.map position (stampNodes timestamp index ns) = List.map position ns
  /\ List.map data (stampNodes timestamp index ns) = List.map data ns.
Proof.
  revert index. induction ns as [|n ns IH]; intros index; [done|].
  destruct (IH (index + 1)%Z) as [H1 H2].
  cbn [stampNodes List.map position data]. by rewrite H1, H2.
Qed.

Lemma stampEdges_length (timestamp : Z) (tn : list Node) (index : Z) (es : list Edge) :
  length (stampEdges timestamp tn index es) = length es.
Proof.
  revert index. induction es as [|e es IH]; intros index; [done|].
  cbn [stampEdges length]. by rewrite IH.
Qed.

Lemma elem_of_stampEdges (timestamp : Z) (tn : list Node) (index : Z)
    (es : list Edge) (e' : Edge) :
  e' ∈ stampEdges timestamp tn index es ->
  exists e, e ∈ es
    /\ source e' = stamped (source e) timestamp (findIndex tn (source e))
    /\ target e' = stamped (target e) timestamp (findIndex tn (target e)).
Proof.
  revert index. induction es as [|e es IH]; intros index; [by intros ?%elem_of_nil|].
  cbn [stampEdges]. intros [->|Hin]%elem_of_cons.
  - exists e. split; [apply list_elem_of_here|done].
  - destruct (IH _ Hin) as (e0 & He0 & Hs & Ht).
    exists e0. split; [by apply list_elem_of_further|done].
Qed.

(** [findIndex] returns the first index that holds the id. *)
Lemma findIndexFrom_found (k : Z) (ns : list Node) (i : string) :
  (exists n, n ∈ ns /\ id n = i) ->
  exists (j : nat) (n : Node),
    findIndexFrom k ns i = (k + Z.of_nat j)%Z /\ ns !! j = Some n /\ id n = i.
Proof.
  revert k. induction ns as [|m ns IH]; intros k (n & Hn & Hid).
  - by apply elem_of_nil in Hn.
  - cbn [findIndexFrom]. destruct (String.eqb (id m) i) eqn:E.
    + apply String.eqb_eq in E. exists 0%nat, m. split; [cbn; lia|done].
    + apply elem_of_cons in Hn as [->|Hn].
      { apply String.eqb_neq in E. done. }
      destruct (IH (k + 1)%Z) as (j & n' & Hj & Hl & Hi); [by exists n|].
      exists (S j), n'. split; [rewrite Hj; lia|done].
Qed.

Lemma loaded_node_of_id (timestamp : Z) (ns : list Node) (i : string) :
  (exists n, n ∈ ns /\ id n = i) ->
  exists n', n' ∈ stampNodes timestamp 0 ns
    /\ id n' = stamped i timestamp (findIndex ns i).
Proof.
  intros H. destruct (findIndexFrom_found 0 ns i H) as (j & n & Hj & Hl & Hi).
  pose proof (stampNodes_lookup timestamp 0 ns j) as Hs. rewrite Hl in Hs. cbn in Hs.
  eexists. split; [by eapply list_elem_of_lookup_2|].
  cbn [id]. unfold findIndex. by rewrite Hj, Hi.
Qed.

(** X21. When the edges of the template refer to nodes of the template, the
    edges of the loaded canvas refer to loaded nodes: an end is renamed to
    the stamped id of the first template node with its id. *)
Theorem template_edges_resolve
    (timestamp : Z) (template : WorkflowTemplate) (st : App) :
  Editor.edgesResolve (t_nodes template) (t_edges template) ->
  Editor.edgesResolve (nodes (loadTemplate timestamp template st))
    (edges (loadTemplate timestamp template st)).
Proof.
  intros Hres e' He'. unfold loadTemplate in *.
  cbn [nodes edges addChatMessage] in *.
  apply elem_of_stampEdges in He' as (e & He & Hs & Ht).
  destruct (Hres e He) as [Hsrc Htgt].
  destruct (loaded_node_of_id timestamp (t_nodes template) (source e) Hsrc)
    as (s' & Hs'in & Hs'id).
  destruct (loaded_node_of_id timestamp (t_nodes template) (target e) Htgt)
    as (t' & Ht'in & Ht'id).
  split; [exists s'|exists t']; split; try done; congruence.
Qed.

Lemma template_edges_resolve_witness :
  let mk i kind := {| id := i; position := {| px := 50; py := 50 |};
                      data := {| label := i; nodeType := kind; locked := false;
                                 compliance_reason := None; description := None |} |} in
  let template :=
    {| t_id := "t1"; t_name := "Intake"; t_description := "Form intake";
       t_category := "general"; t_icon := "doc";
       t_nodes := [mk "start" "trigger"; mk "store" "database"];
       t_edges := [ {| edge_id := "e1"; source := "start"; target := "store" |} ] |} in
  let st := {| nodes := []; edges := []; selectedNodes := []; editingNode := None;
               showEditModal := false; showTemplateModal := true;
               allPositions := []; pendingPositions := []; chat := [] |} in
  Editor.edgesResolve (t_nodes template) (t_edges template)
  /\ edges (loadTemplate 1700000000000 template st)
     = [ {| edge_id := "e1_1700000000000_0"; source := "start_1700000000000_0";
            target := "store_1700000000000_1" |} ]
  /\ Editor.edgesResolve (nodes (loadTemplate 1700000000000 template st))
       (edges (loadTemplate 1700000000000 template st)).
Proof.
  intros mk template st.
  assert (Hres : Editor.edgesResolve (t_nodes template) (t_edges template)).
  { intros e He. apply list_elem_of_In in He. simpl in He.
    destruct He as [<-|[]]. split; simpl.
    - exists (mk "start" "trigger").
      split; [apply list_elem_of_In; simpl; tauto | reflexivity].
    - exists (mk "store" "database").
      split; [apply list_elem_of_In; simpl; tauto | reflexivity]. }
  split; [exact Hres|]. split; [vm_compute; reflexivity|].
  exact (template_edges_resolve 1700000000000 template st Hres).
Defined.

(** *** Stamped ids *)

Lemma allChars_app (p : ascii -> bool) (a b : string) :
  CodeGen.allChars p (a +:+ b) = CodeGen.allChars p a && CodeGen.allChars p b.
Proof.
  induction a as [|c a IH]; [done|].
  rewrite TranslatorExtra.string_app_cons. cbn [CodeGen.allChars].
  by rewrite IH, andb_assoc.
Qed.

(** A text is cut in one way only at its last underscore. *)
Lemma cut_at_last_underscore (a1 a2 d1 d2 : string) :
  CodeGen.allChars (fun c => negb (Ascii.eqb c CodeGen.underscore)) d1 = true ->
  CodeGen.allChars (fun c => negb (Ascii.eqb c CodeGen.underscore)) d2 = true ->
  a1 +:+ "_" +:+ d1 = a2 +:+ "_" +:+ d2 -> d1 = d2.
Proof.
  intros H1 H2. revert a2.
  assert (Hno : forall a d d',
            CodeGen.allChars (fun c => negb (Ascii.eqb c CodeGen.underscore)) d = true ->
            d <> a +:+ "_" +:+ d').
  { intros a d d' Hd ->. rewrite allChars_app in Hd.
    apply andb_true_iff in Hd as [_ Hd].
    rewrite TranslatorExtra.string_app_cons in Hd. cbn in Hd. discriminate Hd. }
  induction a1 as [|c a1 IH]; intros [|c' a2];
    rewrite ?TranslatorExtra.string_app_cons, ?TranslatorExtra.string_app_nil_l.
  - by intros [= ->].
  - intros [= _ H]. by apply Hno in H.
  - intros [= _ H]. symmetry in H. by apply Hno in H.
  - intros [= _ H]. by apply (IH a2).
Qed.

Lemma pretty_N_go_no_underscore (x : N) (s : string) :
  CodeGen.allChars (fun c => negb (Ascii.eqb c CodeGen.underscore)) s = true ->
  CodeGen.allChars (fun c => negb (Ascii.eqb c CodeGen.underscore)) (pretty_N_go x s)
  = true.
Proof.
  revert s. induction (N.lt_wf_0 x) as [x _ IH]; intros s Hs.
  assert (x = 0 \/ 0 < x)%N as [->|Hx] by lia.
  - by rewrite pretty_N_go_0.
  - rewrite pretty_N_go_step by done. apply IH.
    { by apply N.div_lt. }
    cbn [CodeGen.allChars]. rewrite Hs, andb_true_r.
    unfold pretty_N_char. by repeat case_match.
Qed.

Lemma pretty_Z_no_underscore (k : Z) :
  CodeGen.allChars (fun c => negb (Ascii.eqb c CodeGen.underscore)) (pretty k) = true.
Proof.
  assert (HN : forall p : positive,
            CodeGen.allChars (fun c => negb (Ascii.eqb c CodeGen.underscore))
              (pretty p) = true).
  { intros p. unfold pretty, pretty_positive, pretty, pretty_N.
    case_decide; [done|]. by apply pretty_N_go_no_underscore. }
  destruct k as [|p|p]; unfold pretty, pretty_Z; [done|apply HN|].
  rewrite TranslatorExtra.string_app_cons, TranslatorExtra.string_app_nil_l.
  cbn [CodeGen.allChars]. change (pretty_positive p) with (pretty p).
  by rewrite HN.
Qed.

Lemma stamped_index (i1 i2 : string) (timestamp k1 k2 : Z) :
  stamped i1 timestamp k1 = stamped i2 timestamp k2 -> k1 = k2.
Proof.
  unfold stamped. intros H.
  assert (H' : (i1 +:+ "_" +:+ pretty timestamp) +:+ "_" +:+ pretty k1
               = (i2 +:+ "_" +:+ pretty timestamp) +:+ "_" +:+ pretty k2).
  { by rewrite !TranslatorExtra.string_app_assoc. }
  apply cut_at_last_underscore in H'; try apply pretty_Z_no_underscore.
  by apply (inj pretty) in H'.
Qed.

Lemma stampEdges_lookup (timestamp : Z) (tn : list Node) (index : Z)
    (es : list Edge) (i : nat) :
  edge_id <$> stampEdges timestamp tn index es !! i
  = (fun e => stamped (edge_id e) timestamp (index + Z.of_nat i)) <$> es !! i.
Proof.
  revert index i. induction es as [|e es IH]; intros index i; [done|].
  destruct i as [|i]; cbn [stampEdges].
  - cbn. by rewrite Z.add_0_r.
  - change ((?x :: ?l) !! S i) with (l !! i).
    rewrite IH. destruct (es !! i); [|done]. cbn. do 2 f_equal. lia.
Qed.

(** X22. Loading a template replaces the canvas: the nodes are the nodes of the
    template, as many, with their data and positions, in order, each with
    its id stamped with the time and its index; the tracked positions are
    those of the loaded nodes, nothing is pending, and the template dialog
    is closed. No node or edge of the previous canvas remains. The ids of
    the loaded nodes are pairwise different, and so are the ids of the
    loaded edges, whatever the template holds: the index at the end of a
    stamped id tells the entries apart, even when two nodes of the template
    share an id. *)
Theorem template_load_replaces_canvas
    (timestamp : Z) (template : WorkflowTemplate) (st : App) :
  let st' := loadTemplate timestamp template st in
  length (nodes st') = length (t_nodes template)
  /\ length (edges st') = length (t_edges template)
  /\ List.map position (nodes st') = List.map position (t_nodes template)
  /\ List.map data (nodes st') = List.map data (t_nodes template)
  /\ (forall i n, t_nodes template !! i = Some n ->
        id <$> nodes st' !! i = Some (stamped (id n) timestamp (Z.of_nat i)))
  /\ NoDup (List.map id (nodes st'))
  /\ NoDup (List.map edge_id (edges st'))
  /\ allPositions st' = List.map position (nodes st')
  /\ pendingPositions st' = []
  /\ showTemplateModal st' = false
  /\ (forall other, nodes (loadTemplate timestamp template other) = nodes st'
                    /\ edges (loadTemplate timestamp template other) = edges st').
Proof.
  intros st'. subst st'. unfold loadTemplate.
  cbn [nodes edges allPositions pendingPositions showTemplateModal addChatMessage].
  destruct (stampNodes_fields timestamp 0 (t_nodes template)) as [Hp Hd].
  split; [apply stampNodes_length|]. split; [apply stampEdges_length|].
  split; [exact Hp|]. split; [exact Hd|].
  split; [intros i n Hn; by rewrite stampNodes_lookup, Hn|].
  split; [|split; [|done]].
  - apply NoDup_alt. intros i j x.
    change (List.map id ?l) with (id <$> l). rewrite !list_lookup_fmap.
    rewrite !stampNodes_lookup.
    destruct (t_nodes template !! i) as [n|]; [|done].
    destruct (t_nodes template !! j) as [m|]; [|done].
    cbn. intros [= <-] [= H]. apply stamped_index in H. lia.
  - apply NoDup_alt. intros i j x.
    change (List.map edge_id ?l) with (edge_id <$> l). rewrite !list_lookup_fmap.
    rewrite !stampEdges_lookup.
    destruct (t_edges template !! i) as [n|]; [|done].
    destruct (t_edges template !! j) as [m|]; [|done].
    cbn. intros [= <-] [= H]. apply stamped_index in H. lia.
Qed.

(** *** Auto-fix *)

Section AutoFix.
Variables cos_deg sin_deg : Z -> Q.

(** On a canvas that has a start node unless it is empty, and a validation
    node unless it has at most one node, auto-fix finds nothing to do. *)
Lemma autofix_settled (now1 now2 : Z) (r1 r2 r3 r4 : Q) (st : App) :
  (nodes st = [] \/ existsb isStartNode (nodes st) = true) ->
  (length (nodes st) <= 1 \/ existsb isValidationNode (nodes st) = true) ->
  autoFixWorkflow cos_deg sin_deg now1 now2 r1 r2 r3 r4 st
  = addChatMessage "system" "No auto-fixes needed" st.
Proof.
  intros H1 H2. unfold autoFixWorkflow.
  assert (E1 : Nat.ltb 0 (length (nodes st)) && negb (existsb isStartNode (nodes st))
               = false).
  { destruct H1 as [-> | ->]; [done|]. by rewrite andb_false_r. }
  rewrite E1.
  assert (E2 : Nat.ltb 1 (length (nodes st))
               && negb (existsb isValidationNode (nodes st)) = false).
  { destruct H2 as [H2 | ->]; [|by rewrite andb_false_r].
    apply Nat.ltb_ge in H2. by rewrite H2. }
  rewrite E2. done.
Qed.

Lemma autofix_cases (now1 now2 : Z) (r1 r2 r3 r4 : Q) (st : App) :
  let st' := autoFixWorkflow cos_deg sin_deg now1 now2 r1 r2 r3 r4 st in
  edges st' = edges st
  /\ exists pre post,
       nodes st' = pre ++ nodes st ++ post
       /\ (pre = []
           \/ nodes st <> [] /\ existsb isStartNode (nodes st) = false
              /\ pre = [ {| id := "trigger_" +:+ pretty now1;
                            position := Layout.findFreePosition cos_deg sin_deg r1 r2
                                          (allPositions st) (pendingPositions st)
                                          (Some 50%Q) (Some 100%Q);
                            data := {| label := "Start Trigger"; nodeType := "trigger";
                                       locked := false; compliance_reason := None;
                                       description := Some "Workflow trigger - auto-added" |} |} ])
       /\ (post = []
           \/ post = [ {| id := "validation_" +:+ pretty now2;
                          position := Layout.findFreePosition cos_deg sin_deg r3 r4
                                        (allPositions st) (pendingPositions st) None None;
                          data := {| label := "Validation Check"; nodeType := "validation";
                                     locked := true;
                                     compliance_reason := Some "Added for workflow compliance";
                                     description := Some "Data validation - auto-added" |} |} ])
       /\ (nodes st' = [] \/ existsb isStartNode (nodes st') = true)
       /\ (length (nodes st') <= 1 \/ existsb isValidationNode (nodes st') = true).
Proof.
  intros st'. subst st'. unfold autoFixWorkflow.
  destruct (Nat.ltb 0 (length (nodes st)) && negb (existsb isStartNode (nodes st)))
    eqn:E1.
  - apply andb_true_iff in E1 as [Hlen Hstart%negb_true_iff].
    apply Nat.ltb_lt in Hlen.
    assert (Hne : nodes st <> []) by (destruct (nodes st); [simpl in Hlen; lia|done]).
    match goal with
    | |- context [Nat.ltb 1 (length (?t :: nodes st)) && negb (existsb isValidationNode (?t :: nodes st))] =>
        set (trigger := t);
        destruct (Nat.ltb 1 (length (trigger :: nodes st))
                  && negb (existsb isValidationNode (trigger :: nodes st))) eqn:E2
    end.
    + cbn [app length Nat.ltb Nat.leb nodes edges addChatMessage setNodes setEdges].
      split; [done|].
      eexists [trigger], [_]. split; [reflexivity|].
      split; [by right|]. split; [by right|].
      split; [by right|]. right.
      cbn [existsb]. rewrite existsb_app. cbn. by rewrite !orb_true_r.
    + cbn [app length Nat.ltb Nat.leb nodes edges addChatMessage setNodes setEdges].
      split; [done|].
      exists [trigger], []. split; [by rewrite app_nil_r|].
      split; [by right|]. split; [by left|].
      split; [by right|].
      apply andb_false_iff in E2 as [E2|E2%negb_false_iff]; [|by right].
      left. apply Nat.ltb_ge in E2. exact E2.
  - assert (Hs : nodes st = [] \/ existsb isStartNode (nodes st) = true).
    { apply andb_false_iff in E1 as [E1|E1%negb_false_iff]; [|by right].
      left. apply Nat.ltb_ge in E1. destruct (nodes st); [done|simpl in E1; lia]. }
    destruct (Nat.ltb 1 (length (nodes st))
              && negb (existsb isValidationNode (nodes st))) eqn:E2.
    + cbn [app length Nat.ltb Nat.leb nodes edges addChatMessage setNodes setEdges].
      split; [done|].
      eexists [], [_]. split; [reflexivity|].
      split; [by left|]. split; [by right|].
      apply andb_true_iff in E2 as [Hlen _]. apply Nat.ltb_lt in Hlen.
      split.
      * right. destruct Hs as [Hs|Hs]; [rewrite Hs in Hlen; simpl in Hlen; lia|].
        by rewrite existsb_app, Hs.
      * right. rewrite existsb_app. cbn. by rewrite orb_true_r.
    + cbn [length Nat.ltb Nat.leb nodes edges addChatMessage].
      split; [done|].
      exists [], []. split; [by rewrite app_nil_r|].
      split; [by left|]. split; [by left|]. split; [exact Hs|].
      apply andb_false_iff in E2 as [E2|E2%negb_false_iff]; [|by right].
      left. by apply Nat.ltb_ge in E2.
Qed.

End AutoFix.


Lemma findFreePosition_preferred (cos_deg sin_deg : Z -> Q) (rand1 rand2 : Q)
    (all pending : list XY) (preferredX preferredY : option Q) :
  Layout.isPositionFree all pending (default 100%Q preferredX) (default 100%Q preferredY)
  = true ->
  Layout.findFreePosition cos_deg sin_deg rand1 rand2 all pending preferredX preferredY
  = {| px := default 100%Q preferredX; py := default 100%Q preferredY |}.
Proof.
  intros H. unfold Layout.findFreePosition, Layout.tryPosition. by rewrite H.
Qed.

(** X24. Auto-fix places its two nodes against the same list of positions: the
    trigger is not yet on the list when the validation node is placed. On
    a canvas without a start node and without a validation node, where the
    points (50, 100) and (100, 100) are both free, the trigger goes to the
    first and the validation node to the second, and the two footprints
    overlap. *)
Theorem autofix_pair_overlaps
    (cos_deg sin_deg : Z -> Q) (now1 now2 : Z) (r1 r2 r3 r4 : Q) (st : App) :
  nodes st <> [] ->
  existsb isStartNode (nodes st) = false ->
  existsb isValidationNode (nodes st) = false ->
  Layout.isPositionFree (allPositions st) (pendingPositions st) 50 100 = true ->
  Layout.isPositionFree (allPositions st) (pendingPositions st) 100 100 = true ->
  exists trigger validation,
    nodes (autoFixWorkflow cos_deg sin_deg now1 now2 r1 r2 r3 r4 st)
    = [trigger] ++ nodes st ++ [validation]
    /\ position trigger = {| px := 50; py := 100 |}
    /\ position validation = {| px := 100; py := 100 |}
    /\ ~ Layout.separated (position trigger) (position validation).
Proof.
  intros Hne Hstart Hval H1 H2. unfold autoFixWorkflow.
  assert (Hlen : Nat.ltb 0 (length (nodes st)) = true).
  { apply Nat.ltb_lt. destruct (nodes st); [done|simpl; lia]. }
  rewrite Hlen, Hstart. cbn [negb andb].
  assert (Hlen' : forall t, Nat.ltb 1 (length (t :: nodes st)) = true).
  { intros t. apply Nat.ltb_lt. apply Nat.ltb_lt in Hlen. simpl. lia. }
  rewrite Hlen'. cbn [existsb isValidationNode data nodeType].
  replace (String.eqb "trigger" "validation") with false by reflexivity.
  fold (isValidationNode). cbn [orb]. rewrite Hval. cbn [negb andb].
  cbn [app length Nat.ltb Nat.leb nodes addChatMessage setNodes setEdges].
  eexists _, _. split; [reflexivity|]. cbn [position].
  rewrite (findFreePosition_preferred _ _ _ _ _ _ (Some 50%Q) (Some 100%Q)) by exact H1.
  rewrite (findFreePosition_preferred _ _ _ _ _ _ None None) by exact H2.
  split; [reflexivity|]. split; [reflexivity|].
  unfold Layout.separated, Layout.nodeWidth, Layout.nodeHeight, Layout.minSpacing.
  cbn [px py default].
  change (inject_Z 150) with 150%Q. change (inject_Z 80) with 80%Q.
  change (inject_Z 10) with 10%Q.
  unfold Datatypes.id. intros [H|[H|[H|H]]]; lra.
Qed.

Lemma autofix_pair_overlaps_witness :
  let n := {| id := "a1"; position := {| px := 700; py := 600 |};
              data := {| label := "Send report"; nodeType := "action"; locked := false;
                         compliance_reason := None; description := None |} |} in
  let st := {| nodes := [n]; edges := []; selectedNodes := []; editingNode := None;
               showEditModal := false; showTemplateModal := false;
               allPositions := [ {| px := 700; py := 600 |} ];
               pendingPositions := []; chat := [] |} in
  nodes st <> []
  /\ exists trigger validation,
       nodes (autoFixWorkflow Layout.cosTable Layout.sinTable 1 2 0 0 0 0 st)
       = [trigger] ++ nodes st ++ [validation]
       /\ position trigger = {| px := 50; py := 100 |}
       /\ position validation = {| px := 100; py := 100 |}
       /\ ~ Layout.separated (position trigger) (position validation).
Proof.
  intros n st.
  assert (Hne : nodes st <> []) by discriminate.
  split; [exact Hne|].
  apply (autofix_pair_overlaps Layout.cosTable Layout.sinTable 1 2 0 0 0 0 st Hne);
    reflexivity.
Defined.

(** *** Checking the workflow *)

Lemma filter_length_zero {A : Type} (p : A -> bool) (l : list A) :
  length (List.filter p l) = 0 <-> forall x, x ∈ l -> p x = false.
Proof.
  induction l as [|a l IH]; cbn [List.filter].
  - split; [by intros _ x ?%elem_of_nil|done].
  - destruct (p a) eqn:E; cbn [length].
    + split; [lia|]. intros H. specialize (H a (list_elem_of_here _ _)). congruence.
    + rewrite IH. split.
      * intros H x [->|Hx]%elem_of_cons; [done|by apply H].
      * intros H x Hx. apply H. by apply list_elem_of_further.
Qed.

Lemma filter_length_pos {A : Type} (p : A -> bool) (l : list A) :
  0 < length (List.filter p l) <-> exists x, x ∈ l /\ p x = true.
Proof.
  split.
  - intros H. destruct (List.filter p l) as [|x r] eqn:E; [simpl in H; lia|].
    assert (Hx : In x (List.filter p l)) by (rewrite E; by left).
    apply filter_In in Hx as [Hx Hp]. exists x. by rewrite list_elem_of_In.
  - intros (x & Hx & Hp).
    destruct (length (List.filter p l)) eqn:E; [|lia].
    pose proof (proj1 (filter_length_zero p l) E x Hx). congruence.
Qed.

Lemma issues_nil (ns : list Node) (es : list Edge) :
  validationIssues ns es = [] <->
  length (List.filter (fun n => negb (isConnected es (id n)) && Nat.ltb 1 (length ns)) ns)
  = 0
  /\ (ns = []
      \/ 0 < length (List.filter (fun n => locked (data n)) ns)
         /\ 0 < length (List.filter isStartNode ns)
         /\ 0 < length (List.filter isEndNode ns)).
Proof.
  unfold validationIssues.
  destruct (length (List.filter (fun n => negb (isConnected es (id n))
                                          && Nat.ltb 1 (length ns)) ns)) as [|d] eqn:Ed.
  - cbn [Nat.ltb Nat.leb app]. destruct ns as [|n ns]; [by split; [split; [|left]|]|].
    cbn [length Nat.ltb Nat.leb andb].
    destruct (length (List.filter (fun n0 => locked (data n0)) (n :: ns))) as [|c];
      cbn [Nat.eqb app].
    { split; [done|]. intros [_ [?|[? _]]]; [done|lia]. }
    destruct (length (List.filter isStartNode (n :: ns))) as [|s]; cbn [Nat.eqb app].
    { split; [done|]. intros [_ [?|(_ & ? & _)]]; [done|lia]. }
    destruct (length (List.filter isEndNode (n :: ns))) as [|e]; cbn [Nat.eqb app].
    { split; [done|]. intros [_ [?|(_ & _ & ?)]]; [done|lia]. }
    split; [|done]. intros _. split; [done|]. right. lia.
  - cbn [Nat.ltb Nat.leb app]. split; [done|]. intros [? _]. lia.
Qed.

(** X25. The check passes on the empty canvas, and on no other canvas unless
    it has at least two nodes, every node is an end of some edge, a node is
    locked, a node is a trigger or manual node, and a node is a
    notification or database node. A canvas of one node never passes. *)
Theorem validation_passes_iff (ns : list Node) (es : list Edge) :
  validationIssues ns es = [] <->
  ns = []
  \/ (1 < length ns
      /\ (forall n, n ∈ ns -> isConnected es (id n) = true)
      /\ (exists n, n ∈ ns /\ locked (data n) = true)
      /\ (exists n, n ∈ ns /\ isStartNode n = true)
      /\ (exists n, n ∈ ns /\ isEndNode n = true)).
Proof.
  rewrite issues_nil, filter_length_zero, !filter_length_pos. split.
  - intros [Hconn [->|(Hl & Hs & He)]]; [by left|]. right.
    assert (Hlen : 1 < length ns).
    { destruct Hs as (s & Hsin & Hs), He as (e & Hein & He).
      destruct ns as [|a [|b r]]; [by apply elem_of_nil in Hsin| |simpl; lia].
      apply list_elem_of_In in Hsin as [<-|[]]. apply list_elem_of_In in Hein as [<-|[]].
      unfold isStartNode, isEndNode in *.
      destruct (String.eqb_spec (nodeType (data a)) "trigger") as [E|_];
        [rewrite E in He; discriminate He|].
      destruct (String.eqb_spec (nodeType (data a)) "manual") as [E|_];
        [rewrite E in He; discriminate He|discriminate Hs]. }
    split; [exact Hlen|]. split; [|done].
    intros n Hn. specialize (Hconn n Hn). apply Nat.ltb_lt in Hlen.
    rewrite Hlen, andb_true_r in Hconn. by apply negb_false_iff in Hconn.
  - intros [->|(Hlen & Hconn & Hl & Hs & He)].
    + split; [by intros x ?%elem_of_nil|by left].
    + split; [|by right]. intros n Hn. by rewrite (Hconn n Hn).
Qed.

Lemma filter_length_same (p : Node -> bool) (a b : list Node) :
  (forall n m, id n = id m -> data n = data m -> p n = p m) ->
  LayoutSpec.sameButPosition a b ->
  length (List.filter p a) = length (List.filter p b).
Proof.
  intros Hp. revert b. induction a as [|n a IH]; intros [|m b] [Hid Hdata]; try done.
  cbn in Hid, Hdata. injection Hid as Hi Hid. injection Hdata as Hd Hdata.
  cbn [List.filter]. rewrite (Hp n m Hi Hd).
  specialize (IH b (conj Hid Hdata)). destruct (p m); cbn [length]; by rewrite IH.
Qed.

Lemma issues_same (a b : list Node) (es : list Edge) :
  LayoutSpec.sameButPosition a b -> validationIssues a es = validationIssues b es.
Proof.
  intros Hab.
  assert (Hlen : length a = length b).
  { destruct Hab as [Hid _]. by rewrite <- (length_map id a), Hid, length_map. }
  unfold validationIssues. rewrite <- Hlen.
  rewrite (filter_length_same _ a b) by
    (done || (intros n m Hi Hd; unfold isStartNode, isEndNode; by rewrite ?Hi, ?Hd)).
  rewrite (filter_length_same (fun n => locked (data n)) a b) by
    (done || (intros n m Hi Hd; by rewrite ?Hi, ?Hd)).
  rewrite (filter_length_same isStartNode a b) by
    (done || (intros n m Hi Hd; unfold isStartNode; by rewrite ?Hi, ?Hd)).
  rewrite (filter_length_same isEndNode a b) by
    (done || (intros n m Hi Hd; unfold isEndNode; by rewrite ?Hi, ?Hd)).
  reflexivity.
Qed.

(** X26. Arranging the canvas does not change what the check finds: the issues
    of the arranged canvas are the issues of the canvas before, since the
    arrangement keeps the edges and changes nothing of a node but its
    position. *)
Theorem validation_ignores_layout (st : App) :
  edges (autoArrangeNodes st) = edges st
  /\ LayoutSpec.sameButPosition (nodes (autoArrangeNodes st)) (nodes st)
  /\ validationIssues (nodes (autoArrangeNodes st)) (edges (autoArrangeNodes st))
     = validationIssues (nodes st) (edges st).
Proof.
  assert (Hsame : LayoutSpec.sameButPosition (nodes (autoArrangeNodes st)) (nodes st)).
  { unfold autoArrangeNodes. destruct (Nat.eqb (length (nodes st)) 0); [done|].
    cbn [nodes addChatMessage setNodes]. apply LayoutExtra.arrange_sameButPosition. }
  assert (He : edges (autoArrangeNodes st) = edges st).
  { unfold autoArrangeNodes. by destruct (Nat.eqb (length (nodes st)) 0). }
  split; [exact He|]. split; [exact Hsame|].
  rewrite He. by apply issues_same.
Qed.

(** X27. A node that auto-fix adds has no edge, so the check that follows
    counts it as disconnected: whenever auto-fix changes the canvas, and
    no edge already names the ids it hands out, the check of the result
    reports issues. *)
Theorem autofix_result_fails_validation
    (cos_deg sin_deg : Z -> Q) (now1 now2 : Z) (r1 r2 r3 r4 : Q) (st : App) :
  let st' := autoFixWorkflow cos_deg sin_deg now1 now2 r1 r2 r3 r4 st in
  nodes st' <> nodes st ->
  isConnected (edges st) ("trigger_" +:+ pretty now1) = false ->
  isConnected (edges st) ("validation_" +:+ pretty now2) = false ->
  validationIssues (nodes st') (edges st') <> [].
Proof.
  intros st' Hchanged Ht Hv.
  destruct (autofix_cases cos_deg sin_deg now1 now2 r1 r2 r3 r4 st)
    as (He & pre & post & Hn & Hpre & Hpost & _ & _).
  fold st' in He, Hn.
  assert (Hne : nodes st <> []).
  { intros Hnil. apply Hchanged. subst st'.
    rewrite autofix_settled; [done|by left|]. left. rewrite Hnil. simpl. lia. }
  assert (Hnew : exists x, x ∈ nodes st' /\ isConnected (edges st) (id x) = false).
  { destruct Hpre as [-> | (_ & _ & ->)].
    - destruct Hpost as [-> | ->].
      + exfalso. apply Hchanged. by rewrite Hn, app_nil_r.
      + match type of Hn with _ = _ ++ _ ++ [?v] => exists v end.
        split; [|exact Hv]. rewrite Hn.
        apply elem_of_app. right. apply elem_of_app. right. apply list_elem_of_here.
    - match type of Hn with _ = [?t] ++ _ => exists t end.
      split; [|exact Ht]. rewrite Hn. apply list_elem_of_here. }
  assert (Hlen : 1 < length (nodes st')).
  { rewrite Hn, !length_app.
    assert (0 < length (nodes st)) by (destruct (nodes st); [done|simpl; lia]).
    destruct Hpre as [-> | (_ & _ & ->)]; [|simpl; lia].
    destruct Hpost as [-> | ->]; [|simpl; lia].
    exfalso. apply Hchanged. by rewrite Hn, app_nil_r. }
  intros Hnil. apply issues_nil in Hnil as [Hd _].
  destruct Hnew as (x & Hx & Hdis).
  pose proof (proj1 (filter_length_zero _ _) Hd x Hx) as Hf. cbn beta in Hf.
  apply Nat.ltb_lt in Hlen. rewrite He, Hdis, Hlen in Hf. discriminate Hf.
Qed.

Lemma autofix_result_fails_validation_witness :
  let n := {| id := "a1"; position := {| px := 700; py := 600 |};
              data := {| label := "Send report"; nodeType := "action"; locked := false;
                         compliance_reason := None; description := None |} |} in
  let st := {| nodes := [n]; edges := []; selectedNodes := []; editingNode := None;
               showEditModal := false; showTemplateModal := false;
               allPositions := [ {| px := 700; py := 600 |} ];
               pendingPositions := []; chat := [] |} in
  let st' := autoFixWorkflow Layout.cosTable Layout.sinTable 1 2 0 0 0 0 st in
  nodes st' <> nodes st
  /\ validationIssues (nodes st') (edges st') <> [].
Proof.
  intros n st st'.
  assert (Hchanged : nodes st' <> nodes st).
  { intros H. apply (f_equal (@length Node)) in H. vm_compute in H. discriminate H. }
  split; [exact Hchanged|].
  exact (autofix_result_fails_validation Layout.cosTable Layout.sinTable 1 2 0 0 0 0 st
           Hchanged eq_refl eq_refl).
Defined.

(** *** Adding nodes one at a time *)





End WorkflowProps.

(* ===================================================================== *)
(** * Properties of the code-generation client *)
(* ===================================================================== *)

Module OpenHandsProps.
Import OpenHands.

(** X29. The fields of a task. The language is python or go and the framework
    fastapi or gin accordingly: go exactly for a condition node or a label
    with the word performance, unless the label has one of ai, llm, ml; the
    frameworks express and spring are never chosen. The HTTP method is GET
    for a condition and POST for everything else. The connections list one
    entry for each edge that leaves the node, and an edge whose target is
    not on the canvas is listed as unknown. *)
Theorem task_fields (nodes : list Node) (edges : list Edge) (n : Node) :
  let aiLabel :=
    Str.includes (Str.toLowerCase (label (data n))) "ai"
    || Str.includes (Str.toLowerCase (label (data n))) "llm"
    || Str.includes (Str.toLowerCase (label (data n))) "ml" in
  let fast :=
    String.eqb (nodeType (data n)) "condition"
    || Str.includes (Str.toLowerCase (label (data n))) "performance" in
  (determineLanguage n, determineFramework n)
  = (if negb aiLabel && fast then ("go", "gin") else ("python", "fastapi"))
  /\ determineHttpMethod (nodeType (data n))
     = (if String.eqb (nodeType (data n)) "condition" then "GET" else "POST")
  /\ length (taskConnections nodes edges n)
     = length (List.filter (fun e => String.eqb (source e) (id n)) edges)
  /\ (forall e, e ∈ edges -> source e = id n -> findNode nodes (target e) = None ->
        "unknown" ∈ taskConnections nodes edges n).
Proof.
  intros aiLabel fast. subst aiLabel fast. split; [|split; [|split]].
  - unfold determineFramework, determineLanguage.
    destruct (Str.includes _ "ai" || Str.includes _ "llm" || Str.includes _ "ml");
      [done|].
    by destruct (String.eqb (nodeType (data n)) "condition"
                 || Str.includes _ "performance").
  - unfold determineHttpMethod.
    destruct (String.eqb_spec (nodeType (data n)) "condition") as [->|Hc]; [done|].
    by repeat case_match.
  - unfold taskConnections. apply length_map.
  - intros e He Hsrc Htgt. unfold taskConnections.
    apply list_elem_of_In, in_map_iff. exists e. rewrite Htgt. split; [done|].
    apply filter_In. split; [by apply list_elem_of_In|].
    by apply String.eqb_eq.
Qed.





End OpenHandsProps.
